(** * Challenge service (app.py): statistics engine, challenge store, validator

    A shallow embedding of [app.py] and a verification of its specification.

    - Python [int] is [Z]; Python [float] is an IEEE-754 binary64 value,
      a [spec_float] of the Standard Library at precision 53 and [emax] 1024.
    - [float(n)] and [a / b] on ints round to nearest, ties to even, and raise
      [OverflowError] where the result does not fit a double.
    - [challenges_data] is a [gmap] from secret keys to challenge records.
    - Code that can raise returns a [result]; an exception that leaves
      [step2_submit_statistics] uncaught ends the request as [Crashed]
      (HTTP 500), with the store as mutated so far.
    - [float(s)] on a string is a parameter, [float_of_str], of the
      validator; [uuid.uuid4()] and [random.randint] are inputs of
      [step1_get_challenge]. *)

From Stdlib Require Import ZArith Lia Bool List.
From Stdlib Require Import Floats.SpecFloat.
From stdpp Require Import base option list gmap strings sorting.

#[local] Set Warnings "-register-all".

Local Open Scope Z_scope.

(** ** Exceptions *)

Inductive exn :=
| TypeError | ValueError | KeyError | OverflowError | AttributeError
| ZeroDivisionError | StatisticsError.

Inductive result (A : Type) :=
| Ok (a : A)
| Raise (e : exn).
Arguments Ok {A} a.
Arguments Raise {A} e.

#[global] Instance result_bind : MBind result := fun A B k r =>
  match r with
  | Ok a => k a
  | Raise e => Raise e
  end.

#[global] Instance result_ret : MRet result := fun A a => Ok a.

(** ** Python floats: IEEE-754 binary64 *)

Module Float.

Definition prec : Z := 53.
Definition emax : Z := 1024.

Definition float := spec_float.

Definition eqb : float -> float -> bool := SFeqb.
Definition leb : float -> float -> bool := SFleb.
Definition ltb : float -> float -> bool := SFltb.
Definition sub : float -> float -> float := SFsub prec emax.
Definition mul : float -> float -> float := SFmul prec emax.
Definition fabs : float -> float := SFabs.

Definition is_inf (x : float) : bool :=
  match x with
  | S754_infinity _ => true
  | _ => false
  end.

Definition is_finite (x : float) : bool :=
  match x with
  | S754_zero _ | S754_finite _ _ _ => true
  | _ => false
  end.

(** A rounded result that is an infinity is Python's [OverflowError]. *)
Definition checked (x : float) : result float :=
  if is_finite x then Ok x else Raise OverflowError.

(** [float(n)] for an int [n]. *)
Definition of_int (n : Z) : result float :=
  checked (binary_normalize prec emax n 0 false).

(** [a / b] for ints [a] and [b]: the correctly rounded quotient. *)
Definition truediv (a b : Z) : result float :=
  if b =? 0 then Raise ZeroDivisionError
  else
    match a with
    | Z0 => Ok (S754_zero (b <? 0))
    | _ =>
      let sgn := xorb (a <? 0) (b <? 0) in
      let '(mz, ez, lz) :=
        SFdiv_core_binary prec emax (Z.abs a) 0 (Z.abs b) 0 in
      checked (binary_round_aux prec emax sgn mz ez lz)
    end.

(** Every finite double is a multiple of [2^-1074]: [scaled x] is the
    integer [x * 2^1074]. *)
Definition scaled (x : float) : Z :=
  match x with
  | S754_finite s m e =>
    let v := Z.pos m * 2 ^ (e + 1074) in
    if s then - v else v
  | _ => 0
  end.

(** The doubles: the values that [valid_binary] accepts. *)
Definition valid (x : float) : bool := valid_binary prec emax x.

(** [x] is a finite double of value [v * 2^-1074]. *)
Definition represents (x : float) (v : Z) : Prop :=
  valid x = true /\ is_finite x = true /\ scaled x = v.

(** Comparison of a float with an int is exact in Python. *)
Definition compare_int (x : float) (n : Z) : option comparison :=
  match x with
  | S754_nan => None
  | S754_infinity s => Some (if s then Lt else Gt)
  | S754_zero _ => Some (0 ?= n)
  | S754_finite s m e =>
    let v := if s then Z.neg m else Z.pos m in
    Some (if 0 <=? e then (v * 2 ^ e ?= n) else (v ?= n * 2 ^ (- e)))
  end.

(** [x == n] *)
Definition eqb_int (x : float) (n : Z) : bool :=
  match compare_int x n with
  | Some Eq => true
  | _ => false
  end.

(** [x <= n] *)
Definition leb_int (x : float) (n : Z) : bool :=
  match compare_int x n with
  | Some (Lt | Eq) => true
  | _ => false
  end.

(** [n <= x] *)
Definition int_leb (n : Z) (x : float) : bool :=
  match compare_int x n with
  | Some (Gt | Eq) => true
  | _ => false
  end.

(** The literal [1e-9]: [0x1.12e0be826d695p-30]. *)
Definition tol_1e_9 : float := S754_finite false 4835703278458517 (-82).

Definition zero : float := S754_zero false.

(** [math.isclose(a, b, rel_tol=rel_tol, abs_tol=abs_tol)] on two floats. *)
Definition isclose (a b rel_tol abs_tol : float) : bool :=
  if eqb a b then true
  else if is_inf a || is_inf b then false
  else
    let diff := fabs (sub b a) in
    leb diff (fabs (mul rel_tol b))
    || leb diff (fabs (mul rel_tol a))
    || leb diff abs_tol.

(** The defaults of [math.isclose]: [rel_tol=1e-09], [abs_tol=0.0]. *)
Definition isclose_default (a b : float) : bool :=
  isclose a b tol_1e_9 zero.

End Float.

Abbreviation float := Float.float.

(** ** Python values *)

(** What [request.get_json()] returns: the parsed JSON document. A JSON
    object is the association list of its (distinct) keys. *)
Inductive json :=
| JNull
| JBool (b : bool)
| JInt (n : Z)
| JFloat (x : float)
| JStr (s : string)
| JList (l : list json)
| JDict (d : list (string * json)).

(** [d.get(k)] on the association list of a dict *)
Fixpoint assoc {A} (k : string) (d : list (string * A)) : option A :=
  match d with
  | [] => None
  | (k', v) :: d' => if String.eqb k k' then Some v else assoc k d'
  end.

(** Truth value of a Python object, as [if v:] and [not v] test it. *)
Definition truthy (v : json) : bool :=
  match v with
  | JNull => false
  | JBool b => b
  | JInt n => negb (n =? 0)
  | JFloat x => negb (Float.eqb x Float.zero)
  | JStr s => negb (String.eqb s "")
  | JList l => negb (Nat.eqb (length l) 0)
  | JDict d => negb (Nat.eqb (length d) 0)
  end.

Definition is_not_None (v : json) : bool :=
  match v with
  | JNull => false
  | _ => true
  end.

(** [data.get(k)]: only a dict has [get]; a missing key gives [None]. *)
Definition json_get (data : json) (k : string) : result json :=
  match data with
  | JDict d => Ok (default JNull (assoc k d))
  | _ => Raise AttributeError
  end.

(** The values held by the dict that [calculate_statistics] returns. *)
Inductive statval :=
| SNone
| SInt (n : Z)
| SFloat (x : float)
| SFloats (l : list float).

Definition stats := list (string * statval).

(** [d[k]] *)
Definition getitem (d : stats) (k : string) : result statval :=
  match assoc k d with
  | Some v => Ok v
  | None => Raise KeyError
  end.

(** ** Statistics engine *)

Definition int_sum (l : list Z) : Z := foldr Z.add 0 l.

(** [min(l)] and [max(l)] of a non-empty list, from its first element on *)
Definition list_min (x : Z) (l : list Z) : Z := foldl Z.min x l.
Definition list_max (x : Z) (l : list Z) : Z := foldl Z.max x l.

Definition sorted (l : list Z) : list Z := merge_sort Z.le l.

(** A number as the [statistics] functions return it on int data. *)
Inductive num :=
| NInt (n : Z)
| NFloat (x : float).

(** [float(v)] on a number *)
Definition float_of_num (v : num) : result float :=
  match v with
  | NInt n => Float.of_int n
  | NFloat x => Ok x
  end.

(** [statistics.mean] on ints: the exact fraction [total / n] in lowest
    terms, returned as an int when its denominator is 1 and converted with
    [numerator / denominator] otherwise. *)
Definition statistics_mean (data : list Z) : result num :=
  let total := int_sum data in
  let n := Z.of_nat (length data) in
  if n <? 1 then Raise StatisticsError
  else
    let g := Z.gcd total n in
    let numerator := total / g in
    let denominator := n / g in
    if denominator =? 1 then Ok (NInt numerator)
    else x ← Float.truediv numerator denominator; Ok (NFloat x).

(** [statistics.median]: the middle element of the sorted data for an odd
    length, [(data[i - 1] + data[i]) / 2] for an even one. *)
Definition statistics_median (data : list Z) : result num :=
  let data := sorted data in
  let n := length data in
  if Nat.eqb n 0 then Raise StatisticsError
  else if Nat.eqb (n mod 2) 1 then
    Ok (NInt (nth (n / 2) data 0))
  else
    let i := (n / 2)%nat in
    x ← Float.truediv (nth (i - 1) data 0 + nth i data 0) 2;
    Ok (NFloat x).

(** [Counter(l)]: the count of each distinct value, in order of first
    occurrence. *)
Fixpoint counter_add (x : Z) (c : list (Z * nat)) : list (Z * nat) :=
  match c with
  | [] => [(x, 1%nat)]
  | (y, k) :: c' =>
    if x =? y then (y, S k) :: c' else (y, k) :: counter_add x c'
  end.

Definition Counter (l : list Z) : list (Z * nat) :=
  foldl (fun c x => counter_add x c) [] l.

(** [max(counts.values())] *)
Definition max_value (counts : list (Z * nat)) : nat :=
  foldr Nat.max 0%nat (map snd counts).

(** [[float(m) for m in modes]] *)
Fixpoint floats_of (modes : list Z) : result (list float) :=
  match modes with
  | [] => Ok []
  | m :: modes' =>
    x ← Float.of_int m; xs ← floats_of modes'; Ok (x :: xs)
  end.

Definition calculate_statistics (numbers_y : list Z) : result stats :=
  match numbers_y with
  | [] =>
    Ok [("count", SInt 0);
        ("minimum", SNone);
        ("maximum", SNone);
        ("mean", SNone);
        ("median", SNone);
        ("mode", SNone)]
  | y :: ys =>
    let count := Z.of_nat (length numbers_y) in
    let minimum := list_min y ys in
    let maximum := list_max y ys in
    mean ← statistics_mean numbers_y;
    median ← statistics_median numbers_y;
    let counts := Counter numbers_y in
    let max_freq := max_value counts in
    let modes :=
      sorted
        (map fst (List.filter (fun nf => Nat.eqb (snd nf) max_freq) counts)) in
    fminimum ← Float.of_int minimum;
    fmaximum ← Float.of_int maximum;
    fmean ← float_of_num mean;
    fmedian ← float_of_num median;
    fmodes ← floats_of modes;
    Ok [("count", SInt count);
        ("minimum", SFloat fminimum);
        ("maximum", SFloat fmaximum);
        ("mean", SFloat fmean);
        ("median", SFloat fmedian);
        ("modes", SFloats fmodes)]
  end.

(** ** Challenge store *)

(** One entry of [challenges_data]. [last_correct_submission_data] is
    [JNull] (Python's [None]) until a submission validates. *)
Record challenge := Challenge {
  email : string;
  numbers_y : list Z;
  correct_stats : stats;
  step2_attempts : Z;
  last_correct_submission_data : json
}.

Abbreviation store := (gmap string challenge).

Definition MAX_STEP2_ATTEMPTS : Z := 10.

(** What a request handler hands back: [jsonify(body), status], or an
    exception that nothing catches. *)
Inductive outcome :=
| Response (body : json) (status : Z)
| Crashed (e : exn).

Definition message (s : string) : json := JDict [("message", JStr s)].

(** ** Issuing a challenge *)

(** [email] is [request.args.get('email')], [secret_key] the value of
    [uuid.uuid4().hex], [num_elements] that of [random.randint(5, 15)] and
    [randint i] that of the [i]-th [random.randint(1, 100)]. *)
Definition step1_get_challenge (email : option string) (secret_key : string)
    (num_elements : nat) (randint : nat -> Z) (challenges_data : store)
    : outcome * store :=
  match email with
  | None | Some "" =>
    (Response (JDict [("error", JStr "Email parameter is required")]) 400,
     challenges_data)
  | Some email =>
    let numbers_y := map randint (seq 0 num_elements) in
    match calculate_statistics numbers_y with
    | Raise e => (Crashed e, challenges_data)
    | Ok correct_stats =>
      let challenges_data :=
        <[secret_key := Challenge email numbers_y correct_stats 0 JNull]>
          challenges_data in
      (Response (JDict [("secret_key", JStr secret_key);
                        ("numbers", JList (map JInt numbers_y))]) 200,
       challenges_data)
    end
  end.

(** ** Submitting statistics *)

(** The body of a POST: [request.get_json()] raises on it, or returns the
    parsed document. *)
Inductive request_json :=
| BadBody
| Body (data : json).

Record user_stats := UserStats {
  u_count : json;
  u_minimum : json;
  u_maximum : json;
  u_mean : json;
  u_median : json;
  u_mode : json
}.

(** One entry of [errors]: the field, the expected and the submitted value. *)
Record mismatch := Mismatch {
  field : string;
  expected : statval;
  got : json
}.

Definition int_of_bool (b : bool) : Z := if b then 1 else 0.

(** [u == x] for a submitted value and a float *)
Definition json_eq_float (u : json) (x : float) : bool :=
  match u with
  | JBool b => Float.eqb_int x (int_of_bool b)
  | JInt m => Float.eqb_int x m
  | JFloat y => Float.eqb y x
  | _ => false
  end.

Fixpoint json_eq_floats (us : list json) (xs : list float) : bool :=
  match us, xs with
  | [], [] => true
  | u :: us', x :: xs' => json_eq_float u x && json_eq_floats us' xs'
  | _, _ => false
  end.

(** [u == c] for a submitted value and a value of the statistics dict *)
Definition json_eq_stat (u : json) (c : statval) : bool :=
  match c with
  | SNone => negb (is_not_None u)
  | SInt n =>
    match u with
    | JBool b => int_of_bool b =? n
    | JInt m => m =? n
    | JFloat x => Float.eqb_int x n
    | _ => false
    end
  | SFloat x => json_eq_float u x
  | SFloats xs =>
    match u with
    | JList us => json_eq_floats us xs
    | _ => false
    end
  end.

(** The float argument that [math.isclose] makes of a statistics value. *)
Definition float_of_stat (c : statval) : result float :=
  match c with
  | SInt n => Float.of_int n
  | SFloat x => Ok x
  | SNone | SFloats _ => Raise TypeError
  end.

(** [x in c] *)
Definition float_in_stat (x : float) (c : statval) : result bool :=
  match c with
  | SFloats xs => Ok (existsb (Float.eqb x) xs)
  | _ => Raise TypeError
  end.

Section Service.

(** [float(s)] on a string: the float it denotes, or [None] where Python
    raises [ValueError]. *)
Variable float_of_str : string -> option float.

(** [float(u)] on a submitted value *)
Definition float_of_json (u : json) : result float :=
  match u with
  | JBool b => Float.of_int (int_of_bool b)
  | JInt n => Float.of_int n
  | JFloat x => Ok x
  | JStr s =>
    match float_of_str s with
    | Some x => Ok x
    | None => Raise ValueError
    end
  | JNull | JList _ | JDict _ => Raise TypeError
  end.

(** Whether the format spec [:.2f] applies to a submitted value. *)
Definition format_2f (u : json) : result unit :=
  match u with
  | JBool b => Ok ()
  | JInt n => _ ← Float.of_int n; Ok ()
  | JFloat _ => Ok ()
  | JStr _ => Raise ValueError
  | JNull | JList _ | JDict _ => Raise TypeError
  end.

Definition format_2f_stat (c : statval) : result unit :=
  match c with
  | SInt n => _ ← Float.of_int n; Ok ()
  | SFloat _ => Ok ()
  | SNone | SFloats _ => Raise TypeError
  end.

(** The six checks of a submission, in the order of the source; each one
    threads [valid_submission] and [errors]. *)
Definition check_count (us : user_stats) (correct_stats : stats)
    (st : bool * list mismatch) : result (bool * list mismatch) :=
  c ← getitem correct_stats "count";
  if negb (json_eq_stat (u_count us) c)
  then Ok (false, st.2 ++ [Mismatch "count" c (u_count us)])
  else Ok st.

Definition check_minimum (us : user_stats) (correct_stats : stats)
    (st : bool * list mismatch) : result (bool * list mismatch) :=
  x ← float_of_json (u_minimum us);
  c ← getitem correct_stats "minimum";
  y ← float_of_stat c;
  if negb (Float.isclose_default x y)
  then Ok (false, st.2 ++ [Mismatch "minimum" c (u_minimum us)])
  else Ok st.

Definition check_maximum (us : user_stats) (correct_stats : stats)
    (st : bool * list mismatch) : result (bool * list mismatch) :=
  x ← float_of_json (u_maximum us);
  c ← getitem correct_stats "maximum";
  y ← float_of_stat c;
  if negb (Float.isclose_default x y)
  then Ok (false, st.2 ++ [Mismatch "maximum" c (u_maximum us)])
  else Ok st.

Definition check_mean (us : user_stats) (correct_stats : stats)
    (st : bool * list mismatch) : result (bool * list mismatch) :=
  x ← float_of_json (u_mean us);
  c ← getitem correct_stats "mean";
  y ← float_of_stat c;
  if negb (Float.isclose x y Float.tol_1e_9 Float.tol_1e_9)
  then
    _ ← format_2f_stat c;
    _ ← format_2f (u_mean us);
    Ok (false, st.2 ++ [Mismatch "mean" c (u_mean us)])
  else Ok st.

Definition check_median (us : user_stats) (correct_stats : stats)
    (st : bool * list mismatch) : result (bool * list mismatch) :=
  x ← float_of_json (u_median us);
  c ← getitem correct_stats "median";
  y ← float_of_stat c;
  if negb (Float.isclose x y Float.tol_1e_9 Float.tol_1e_9)
  then Ok (false, st.2 ++ [Mismatch "median" c (u_median us)])
  else Ok st.

Definition check_mode (us : user_stats) (correct_stats : stats)
    (st : bool * list mismatch) : result (bool * list mismatch) :=
  x ← float_of_json (u_mode us);
  c ← getitem correct_stats "modes";
  b ← float_in_stat x c;
  if negb b
  then Ok (false, st.2 ++ [Mismatch "mode" c (u_mode us)])
  else Ok st.

(** Lines 144 to 172: [(valid_submission, errors)] after the six checks. *)
Definition validate (us : user_stats) (correct_stats : stats)
    : result (bool * list mismatch) :=
  st ← check_count us correct_stats (true, []);
  st ← check_minimum us correct_stats st;
  st ← check_maximum us correct_stats st;
  st ← check_mean us correct_stats st;
  st ← check_median us correct_stats st;
  check_mode us correct_stats st.

(** The [try] block: an early response, or the parsed fields. *)
Inductive parsed :=
| Early (r : outcome)
| Fields (data secret_key : json) (us : user_stats).

Definition parse_request (req : request_json) : parsed :=
  let malformed :=
    Early (Response (message "Please try again!!! (Malformed request)") 400) in
  match req with
  | BadBody => malformed
  | Body data =>
    if negb (truthy data)
    then Early (Response (message "Please try again!!! (Invalid JSON)") 400)
    else
      let fields :=
        secret_key ← json_get data "secret_key";
        count ← json_get data "count";
        minimum ← json_get data "minimum";
        maximum ← json_get data "maximum";
        mean ← json_get data "mean";
        median ← json_get data "median";
        mode ← json_get data "mode";
        Ok (secret_key, UserStats count minimum maximum mean median mode) in
      match fields with
      | Ok (secret_key, us) => Fields data secret_key us
      | Raise _ => malformed
      end
  end.

Definition all_present (us : user_stats) : bool :=
  forallb is_not_None
    [u_count us; u_minimum us; u_maximum us; u_mean us; u_median us;
     u_mode us].

(** [challenges_data.get(secret_key)]: the keys of the store are strings, so
    only a string finds an entry; a list or a dict is unhashable. The entry
    comes with the key it is stored under, through which the handler
    updates it in place. *)
Definition store_get (challenges_data : store) (secret_key : json)
    : result (option (string * challenge)) :=
  match secret_key with
  | JStr k => Ok (pair k <$> challenges_data !! k)
  | JList _ | JDict _ => Raise TypeError
  | _ => Ok None
  end.

Definition step2_submit_statistics (req : request_json)
    (challenges_data : store) : outcome * store :=
  match parse_request req with
  | Early r => (r, challenges_data)
  | Fields data secret_key us =>
    if negb (truthy secret_key) || negb (all_present us)
    then (Response (message "Please try again!!! (Missing fields)") 400,
          challenges_data)
    else
      match store_get challenges_data secret_key with
      | Raise e => (Crashed e, challenges_data)
      | Ok None =>
        (Response (message "Please try again!!! (Invalid secret_key)") 400,
         challenges_data)
      | Ok (Some (k, challenge_info)) =>
        if MAX_STEP2_ATTEMPTS <=? step2_attempts challenge_info
        then
          if truthy (last_correct_submission_data challenge_info)
          then
            (Response
               (JDict [("message",
                        JStr "Your response has been submitted successfully");
                       ("note",
                        JStr "Rate limit reached, but previous submission was correct.")])
               200,
             challenges_data)
          else
            (Response (message "Please try again!!! (Max attempts reached)")
               429,
             challenges_data)
        else
          let challenge_info :=
            Challenge (email challenge_info) (numbers_y challenge_info)
              (correct_stats challenge_info)
              (step2_attempts challenge_info + 1)
              (last_correct_submission_data challenge_info) in
          let challenges_data :=
            <[k := challenge_info]> challenges_data in
          match validate us (correct_stats challenge_info) with
          | Raise e => (Crashed e, challenges_data)
          | Ok (true, _) =>
            let challenge_info :=
              Challenge (email challenge_info) (numbers_y challenge_info)
                (correct_stats challenge_info)
                (step2_attempts challenge_info)
                data in
            (Response
               (message "Your response has been submitted successfully") 200,
             <[k := challenge_info]> challenges_data)
          | Ok (false, errors) =>
            (Response (message "Please try again!!!") 400, challenges_data)
          end
      end
  end.

End Service.

(** ** Runs of the service *)

(** What [random.randint(5, 15)] and [random.randint(1, 100)] can return. *)
Definition randomness_ok (num_elements : nat) (randint : nat -> Z) : Prop :=
  (5 <= num_elements <= 15)%nat /\ forall i, 1 <= randint i <= 100.

(** The stores that the two handlers can build, starting from the empty
    [challenges_data]. *)
Inductive reachable (float_of_str : string -> option float) : store -> Prop :=
| reach_empty : reachable float_of_str ∅
| reach_step1 s email secret_key num_elements randint :
    reachable float_of_str s ->
    randomness_ok num_elements randint ->
    reachable float_of_str
      (step1_get_challenge email secret_key num_elements randint s).2
| reach_step2 s req :
    reachable float_of_str s ->
    reachable float_of_str (step2_submit_statistics float_of_str req s).2.

(** The store after a sequence of submissions. *)
Definition run (float_of_str : string -> option float)
    (reqs : list request_json) (s : store) : store :=
  foldl (fun s req => (step2_submit_statistics float_of_str req s).2) s reqs.

(** A well-formed submission for the key [k]: its body parses, and its key
    and six statistics are present. *)
Definition well_formed_for (k : string) (req : request_json) (data : json)
    (us : user_stats) : Prop :=
  parse_request req = Fields data (JStr k) us /\
  k <> "" /\
  all_present us = true.

(** A submission reaches the comparison step for the challenge [ci] stored
    under [k]: it is well-formed, its key finds [ci], and the attempt limit
    is not reached. *)
Definition reaches_comparison (req : request_json) (s : store)
    (data : json) (us : user_stats) (k : string) (ci : challenge) : Prop :=
  well_formed_for k req data us /\
  s !! k = Some ci /\
  step2_attempts ci < MAX_STEP2_ATTEMPTS.

(** The entry [ci] after one more attempt, and after a success with the
    payload [data]. *)
Definition attempted (ci : challenge) : challenge :=
  Challenge (email ci) (numbers_y ci) (correct_stats ci)
    (step2_attempts ci + 1) (last_correct_submission_data ci).

Definition succeeded (ci : challenge) (data : json) : challenge :=
  Challenge (email ci) (numbers_y ci) (correct_stats ci)
    (step2_attempts ci) data.

(** ** The six checks, as the specification words them *)

Section Checks.

Variable float_of_str : string -> option float.

(** count: exact equality with the integer of the ground truth *)
Definition count_passes (us : user_stats) (cs : stats) : bool :=
  match getitem cs "count" with
  | Ok c => json_eq_stat (u_count us) c
  | Raise _ => false
  end.

(** approximate equality of the submitted value [u], as a float, with the
    ground-truth field [name] *)
Definition close_passes (rel_tol abs_tol : float) (u : json) (cs : stats)
    (name : string) : bool :=
  match float_of_json float_of_str u, getitem cs name ≫= float_of_stat with
  | Ok x, Ok y => Float.isclose x y rel_tol abs_tol
  | _, _ => false
  end.

(** mode: the submitted value, as a float, equals a member of [modes] *)
Definition mode_passes (us : user_stats) (cs : stats) : bool :=
  match float_of_json float_of_str (u_mode us), getitem cs "modes" with
  | Ok x, Ok (SFloats modes) => existsb (Float.eqb x) modes
  | _, _ => false
  end.

Definition six_checks (us : user_stats) (cs : stats) : list (string * bool) :=
  [("count", count_passes us cs);
   ("minimum", close_passes Float.tol_1e_9 Float.zero (u_minimum us) cs "minimum");
   ("maximum", close_passes Float.tol_1e_9 Float.zero (u_maximum us) cs "maximum");
   ("mean", close_passes Float.tol_1e_9 Float.tol_1e_9 (u_mean us) cs "mean");
   ("median", close_passes Float.tol_1e_9 Float.tol_1e_9 (u_median us) cs "median");
   ("mode", mode_passes us cs)].

End Checks.

Definition success : outcome :=
  Response (message "Your response has been submitted successfully") 200.

Definition failure : outcome :=
  Response (message "Please try again!!!") 400.

Definition limit_reached_success : outcome :=
  Response
    (JDict [("message", JStr "Your response has been submitted successfully");
            ("note",
             JStr "Rate limit reached, but previous submission was correct.")])
    200.

Definition attempts_exhausted : outcome :=
  Response (message "Please try again!!! (Max attempts reached)") 429.

Definition missing_fields : outcome :=
  Response (message "Please try again!!! (Missing fields)") 400.

(** What one check does to [(valid_submission, errors)], given whether it
    passes: it raises only when it does not pass, and otherwise records a
    mismatch under its name exactly when it fails. *)
Definition check_does (name : string) (p : bool) (st : bool * list mismatch)
    (r : result (bool * list mismatch)) : Prop :=
  match r with
  | Ok st' =>
    st'.1 = st.1 && p /\
    map field st'.2 = map field st.2 ++ (if p then [] else [name])
  | Raise _ => p = false
  end.

(** The names of the checks that fail *)
Definition failed_names (checks : list (string * bool)) : list string :=
  map fst (List.filter (fun c => negb c.2) checks).

(** The names of the six statistics of a submission *)
Definition stat_names : list string :=
  ["count"; "minimum"; "maximum"; "mean"; "median"; "mode"].

(** ** Vocabulary of the proofs *)

(** The second half of [binary_round_aux]: normalising the rounded
    mantissa. *)
Definition finish (s : bool) (m e : Z) : float :=
  let '(mrs, e') := shr_fexp Float.prec Float.emax m e loc_Exact in
  match shr_m mrs with
  | Z0 => S754_zero s
  | Z.pos m =>
    if e' <=? Float.emax - Float.prec
    then S754_finite s m e' else S754_infinity s
  | _ => S754_nan
  end.

(** How often [x] occurs in [l] *)
Definition frequency (x : Z) (l : list Z) : nat :=
  length (List.filter (Z.eqb x) l).

(** The count that a [Counter] holds for [x]: 0 when [x] is not a key *)
Fixpoint count_of (x : Z) (c : list (Z * nat)) : nat :=
  match c with
  | [] => 0%nat
  | (y, k) :: c' => if x =? y then k else count_of x c'
  end.

(** The keys of a counter are distinct and its counts positive. *)
Definition counter_ok (c : list (Z * nat)) : Prop :=
  NoDup (map fst c) /\ Forall (fun p => (0 < p.2)%nat) c.

(** The ints from which [calculate_statistics] makes its [modes]. *)
Definition int_modes (l : list Z) : list Z :=
  sorted
    (map fst
       (List.filter (fun nf => Nat.eqb nf.2 (max_value (Counter l)))
          (Counter l))).

(** The ints that convert to a float without rounding *)
Definition exact_int (n : Z) : Prop := Z.abs n <= 2 ^ 53.

(** The statistics of a challenge are those of a dataset of 5 to 15 ints
    between 1 and 100: a count, four floats and a non-empty list of
    floats. *)
Definition ground_truth_ok (ci : challenge) : Prop :=
  (5 <= length (numbers_y ci) <= 15)%nat /\
  Forall (fun x => 1 <= x <= 100) (numbers_y ci) /\
  exists fmin fmax fmean fmed fmodes,
    correct_stats ci =
      [("count", SInt (Z.of_nat (length (numbers_y ci))));
       ("minimum", SFloat fmin);
       ("maximum", SFloat fmax);
       ("mean", SFloat fmean);
       ("median", SFloat fmed);
       ("modes", SFloats fmodes)] /\
    fmodes <> [].

(** ** A worked example

    The dataset of the specification, [[10, 20, 15, 20, 25]], issued under
    the key ["5f2b"], and submissions to it. *)

(** No example below submits a string, so [float] on strings is not
    consulted; the examples run with a conversion that accepts none. *)
Definition no_str_floats : string -> option float := fun _ => None.

Definition example_randint (i : nat) : Z := nth i [10; 20; 15; 20; 25] 10.

Definition example_store : store :=
  (step1_get_challenge (Some "user@example.com") "5f2b" 5 example_randint ∅).2.

(** [count=5, minimum=10.0, maximum=25.0, mean=18.0, median=20.0,
    modes=[20.0]] *)
Definition example_stats : stats :=
  [("count", SInt 5);
   ("minimum", SFloat (S754_finite false 5629499534213120 (-49)));
   ("maximum", SFloat (S754_finite false 7036874417766400 (-48)));
   ("mean", SFloat (S754_finite false 5066549580791808 (-48)));
   ("median", SFloat (S754_finite false 5629499534213120 (-48)));
   ("modes", SFloats [S754_finite false 5629499534213120 (-48)])].

Definition example_challenge (attempts : Z) (last : json) : challenge :=
  Challenge "user@example.com" [10; 20; 15; 20; 25] example_stats attempts
    last.

(** A submission with the right count, minimum and maximum. *)
Definition example_fields (mean median mode : Z) : user_stats :=
  UserStats (JInt 5) (JInt 10) (JInt 25) (JInt mean) (JInt median)
    (JInt mode).

Definition example_data (mean median mode : Z) : json :=
  JDict [("secret_key", JStr "5f2b");
         ("count", JInt 5);
         ("minimum", JInt 10);
         ("maximum", JInt 25);
         ("mean", JInt mean);
         ("median", JInt median);
         ("mode", JInt mode)].

Definition example_request (mean median mode : Z) : request_json :=
  Body (example_data mean median mode).

(** A second challenge, on the dataset [[7, 7, 8, 9, 10]]. *)
Definition other_randint (i : nat) : Z := nth i [7; 7; 8; 9; 10] 7.

Definition other_store : store :=
  (step1_get_challenge (Some "other@example.com") "9c1d" 5 other_randint ∅).2.

Definition other_stats : stats :=
  Eval vm_compute in
    match calculate_statistics [7; 7; 8; 9; 10] with
    | Ok cs => cs
    | Raise _ => []
    end.

Definition other_challenge : challenge :=
  Challenge "other@example.com" [7; 7; 8; 9; 10] other_stats 0 JNull.

Definition other_data : json :=
  JDict [("secret_key", JStr "9c1d");
         ("count", JInt 5);
         ("minimum", JInt 10);
         ("maximum", JInt 25);
         ("mean", JInt 18);
         ("median", JInt 20);
         ("mode", JInt 20)].

(** The example challenge after ten wrong submissions. *)
Definition exhausted_store : store :=
  run no_str_floats (replicate 10 (example_request 18 20 15)) example_store.

(** ** Vocabulary of the further properties *)

(** The quotient [a / b] is a double between the integers below and above
    the exact quotient. *)
Definition mean_within (a b : Z) : bool :=
  match Float.truediv a b with
  | Ok x =>
    Float.valid x && Float.int_leb (a / b) x
    && Float.leb_int x ((a + b - 1) / b)
  | Raise _ => false
  end.

(** [f] holds of every integer from 1 to [n]. *)
Definition forall_upto (n : Z) (f : Z -> bool) : bool :=
  forallb (fun a => f (Z.of_nat a)) (seq 1 (Z.to_nat n)).

(** The ground truth of a challenge holds finite floats only. *)
Definition ground_truth_finite (ci : challenge) : Prop :=
  exists fmin fmax fmean fmed fmodes,
    correct_stats ci =
      [("count", SInt (Z.of_nat (length (numbers_y ci))));
       ("minimum", SFloat fmin);
       ("maximum", SFloat fmax);
       ("mean", SFloat fmean);
       ("median", SFloat fmed);
       ("modes", SFloats fmodes)] /\
    Forall (fun x => Float.is_finite x = true)
      (fmin :: fmax :: fmean :: fmed :: fmodes).

(** The five submitted values that the validator converts to floats *)
Definition float_fields (us : user_stats) : list json :=
  [u_minimum us; u_maximum us; u_mean us; u_median us; u_mode us].

(** ** More of the worked example *)

(** The example store after the right answer was submitted once. *)
Definition recorded_store : store :=
  (step2_submit_statistics no_str_floats (example_request 18 20 20)
     example_store).2.

(** A submission whose mean is NaN. *)
Definition nan_fields : user_stats :=
  UserStats (JInt 5) (JInt 10) (JInt 25) (JFloat S754_nan) (JInt 20)
    (JInt 20).

Definition nan_data : json :=
  JDict [("secret_key", JStr "5f2b");
         ("count", JInt 5);
         ("minimum", JInt 10);
         ("maximum", JInt 25);
         ("mean", JFloat S754_nan);
         ("median", JInt 20);
         ("mode", JInt 20)].

(** A submission whose mean is the string ["17"], and a [float] on strings
    that knows this one string: [float("17")] is [17.0]. *)
Definition string_fields : user_stats :=
  UserStats (JInt 5) (JInt 10) (JInt 25) (JStr "17") (JInt 20) (JInt 20).

Definition string_data : json :=
  JDict [("secret_key", JStr "5f2b");
         ("count", JInt 5);
         ("minimum", JInt 10);
         ("maximum", JInt 25);
         ("mean", JStr "17");
         ("median", JInt 20);
         ("mode", JInt 20)].

Definition float_of_17 (s : string) : option float :=
  if String.eqb s "17"
  then Some (S754_finite false 4785074604081152 (-48))
  else None.

(** A submission whose key is the array [[1]]. *)
Definition array_key_data : json :=
  JDict [("secret_key", JList [JInt 1]);
         ("count", JInt 5);
         ("minimum", JInt 10);
         ("maximum", JInt 25);
         ("mean", JInt 18);
         ("median", JInt 20);
         ("mode", JInt 20)].

(** ** Conversions of the submitted values *)

(** The five [float] conversions of the validator, in its order: the floats,
    or the exception of the first conversion that raises. *)
Definition conversions (float_of_str : string -> option float)
    (us : user_stats) : result (list float) :=
  mapM (float_of_json float_of_str) (float_fields us).

(** A submission whose minimum is [10 ** 400], beyond the range of [float],
    and whose mode is wrong. *)
Definition overflow_fields : user_stats :=
  UserStats (JInt 5) (JInt (10 ^ 400)) (JInt 25) (JInt 18) (JInt 20)
    (JInt 15).

Definition overflow_data : json :=
  JDict [("secret_key", JStr "5f2b");
         ("count", JInt 5);
         ("minimum", JInt (10 ^ 400));
         ("maximum", JInt 25);
         ("mean", JInt 18);
         ("median", JInt 20);
         ("mode", JInt 15)].

(** The right answer written with floats: [10.0], [25.0], [18.0], [20.0]
    and [20.0]. *)
Definition decimal_fields : user_stats :=
  UserStats (JInt 5)
    (JFloat (S754_finite false 5629499534213120 (-49)))
    (JFloat (S754_finite false 7036874417766400 (-48)))
    (JFloat (S754_finite false 5066549580791808 (-48)))
    (JFloat (S754_finite false 5629499534213120 (-48)))
    (JFloat (S754_finite false 5629499534213120 (-48))).

Definition decimal_data : json :=
  JDict [("secret_key", JStr "5f2b");
         ("count", JInt 5);
         ("minimum", JFloat (S754_finite false 5629499534213120 (-49)));
         ("maximum", JFloat (S754_finite false 7036874417766400 (-48)));
         ("mean", JFloat (S754_finite false 5066549580791808 (-48)));
         ("median", JFloat (S754_finite false 5629499534213120 (-48)));
         ("mode", JFloat (S754_finite false 5629499534213120 (-48)))].

(** A challenge under the same key on the dataset [[15, 16, 17, 18, 19]],
    whose mean is 17. *)
Definition level_randint (i : nat) : Z := nth i [15; 16; 17; 18; 19] 15.

Definition level_store : store :=
  (step1_get_challenge (Some "user@example.com") "5f2b" 5 level_randint ∅).2.

Definition level_stats : stats :=
  Eval vm_compute in
    match calculate_statistics [15; 16; 17; 18; 19] with
    | Ok cs => cs
    | Raise _ => []
    end.

(** * Facts about binary64 arithmetic *)

Module FloatFacts.

Import Float.

Lemma digits2_pos_size p : digits2_pos p = Pos.size p.
Proof. induction p; simpl; congruence. Qed.

(** A positive number of [d] binary digits lies in [[2^(d-1), 2^d)]. *)
Lemma digits_bounds p :
  2 ^ (Z.pos (digits2_pos p) - 1) <= Z.pos p < 2 ^ Z.pos (digits2_pos p).
Proof.
  rewrite digits2_pos_size. split.
  - pose proof (Pos.size_le p) as H.
    assert (Z.pos (2 ^ Pos.size p) <= Z.pos p~0) as H' by exact H.
    rewrite Pos2Z.inj_pow in H'.
    replace (Z.pos (Pos.size p)) with (Z.succ (Z.pos (Pos.size p) - 1)) in H'
      by lia.
    rewrite Z.pow_succ_r in H' by lia. lia.
  - pose proof (Pos.size_gt p) as H.
    assert (Z.pos p < Z.pos (2 ^ Pos.size p)) as H' by exact H.
    by rewrite Pos2Z.inj_pow in H'.
Qed.

Lemma digits_unique p d :
  2 ^ (d - 1) <= Z.pos p < 2 ^ d -> Z.pos (digits2_pos p) = d.
Proof.
  intros [Hlo Hhi]. pose proof (digits_bounds p) as [Hlo' Hhi'].
  assert (0 < d).
  { destruct (Z.lt_ge_cases 0 d); [done|].
    rewrite (Z.pow_neg_r 2 (d - 1)) in Hlo by lia.
    assert (2 ^ d <= 2 ^ 0) by (apply Z.pow_le_mono_r; lia). lia. }
  assert (d - 1 < Z.pos (digits2_pos p)).
  { apply (Z.pow_lt_mono_r_iff 2); lia. }
  assert (Z.pos (digits2_pos p) - 1 < d).
  { apply (Z.pow_lt_mono_r_iff 2); lia. }
  lia.
Qed.

(** The number of digits of a natural number below [2^k] is at most [k]. *)
Lemma Zdigits2_le m k :
  0 <= k -> 0 <= m < 2 ^ k -> 0 <= Zdigits2 m <= k.
Proof.
  intros Hk [Hm Hlt]. destruct m as [|p|p]; simpl; [lia| |lia].
  pose proof (digits_bounds p) as [Hlo _].
  split; [lia|].
  assert (Z.pos (digits2_pos p) - 1 < k); [|lia].
  apply (Z.pow_lt_mono_r_iff 2); lia.
Qed.

Lemma Zdigits2_bound m : 0 <= m -> m < 2 ^ Zdigits2 m.
Proof.
  destruct m as [|p|p]; simpl; [lia| |lia].
  intros _. apply digits_bounds.
Qed.

Lemma iter_xO m d : Z.pos (Pos.iter xO m d) = Z.pos m * 2 ^ Z.pos d.
Proof.
  induction d as [|d IH] using Pos.peano_ind.
  - simpl. lia.
  - rewrite Pos.iter_succ, Pos2Z.inj_xO, IH, Pos2Z.inj_succ, Z.pow_succ_r; lia.
Qed.

Lemma fexp_eq e : fexp prec emax e = Z.max (e - 53) (-1074).
Proof. reflexivity. Qed.

(** A 53-digit mantissa with an exponent in range is left as it is. *)
Lemma round_aux_canonical s m e :
  Z.pos (digits2_pos m) = 53 -> -1074 <= e <= 971 ->
  binary_round_aux prec emax s (Z.pos m) e loc_Exact = S754_finite s m e.
Proof.
  intros Hd He.
  assert (shr_fexp prec emax (Z.pos m) e loc_Exact
          = (Build_shr_record (Z.pos m) false false, e)) as Hshr.
  { unfold shr_fexp. simpl Zdigits2. rewrite Hd, fexp_eq.
    replace (Z.max (53 + e - 53) (-1074) - e) with 0 by lia. done. }
  unfold binary_round_aux. rewrite Hshr. simpl. rewrite Hshr. simpl.
  assert ((e <=? emax - prec) = true) as -> by (apply Z.leb_le; unfold emax, prec; lia).
  done.
Qed.

(** [float(n)] for [0 < n < 2^53] is [n], with the mantissa shifted to 53
    digits. *)
Lemma binary_round_exact s p :
  Z.pos p < 2 ^ 53 ->
  exists m e,
    binary_round prec emax s p 0 = S754_finite s m e /\
    Z.pos m = Z.pos p * 2 ^ (- e) /\
    -52 <= e <= 0 /\
    Z.pos (digits2_pos m) = 53.
Proof.
  intros Hp. pose proof (digits_bounds p) as [Hlo Hhi].
  set (d := Z.pos (digits2_pos p)) in *.
  assert (1 <= d <= 53) as Hd.
  { split; [subst d; lia|].
    assert (d - 1 < 53); [|lia]. apply (Z.pow_lt_mono_r_iff 2); lia. }
  unfold binary_round. rewrite Z.add_0_r, fexp_eq. fold d.
  replace (Z.max (d - 53) (-1074)) with (d - 53) by lia.
  unfold shl_align. rewrite Z.sub_0_r.
  destruct (d - 53) as [|k|k] eqn:Hk; [|lia|].
  - exists p, 0. rewrite round_aux_canonical by (fold d; lia).
    repeat split; try lia; fold d; lia.
  - assert (Z.pos (digits2_pos (Pos.iter xO p k)) = 53) as Hdig.
    { apply digits_unique. rewrite iter_xO. 
      replace 53 with (d + Z.pos k) at 2 by lia.
      replace (53 - 1) with ((d - 1) + Z.pos k) by lia.
      rewrite !Z.pow_add_r by lia.
      assert (0 < 2 ^ Z.pos k) by (apply Z.pow_pos_nonneg; lia). nia. }
    exists (Pos.iter xO p k), (Z.neg k).
    rewrite round_aux_canonical by (try done; lia).
    repeat split; try lia; try done.
    rewrite iter_xO. done.
Qed.


(** ** Order and value *)

Lemma mul_compare_r n m p : 0 < p -> (n * p ?= m * p) = (n ?= m).
Proof. intros Hp. symmetry. apply Zmult_compare_compat_r. lia. Qed.

Lemma valid_finite s m e :
  valid (S754_finite s m e) = true ->
  -1074 <= e <= 971 /\
  Z.pos (digits2_pos m) <= 53 /\
  (Z.pos (digits2_pos m) = 53 \/ e = -1074).
Proof.
  unfold valid, valid_binary, bounded, canonical_mantissa.
  rewrite andb_true_iff, Z.eqb_eq, Z.leb_le, fexp_eq.
  unfold emax, prec. lia.
Qed.

Lemma finite_valid s m e :
  Z.pos (digits2_pos m) = 53 -> -1074 <= e <= 971 ->
  valid (S754_finite s m e) = true.
Proof.
  intros Hd He. unfold valid, valid_binary, bounded, canonical_mantissa.
  rewrite andb_true_iff, Z.eqb_eq, Z.leb_le, fexp_eq.
  unfold emax, prec. lia.
Qed.

(** Two positive doubles compare as their values do. *)
Lemma compare_magnitudes m1 e1 m2 e2 :
  valid (S754_finite false m1 e1) = true ->
  valid (S754_finite false m2 e2) = true ->
  match e1 ?= e2 with
  | Lt => Lt
  | Gt => Gt
  | Eq => Pos.compare_cont Eq m1 m2
  end = (Z.pos m1 * 2 ^ (e1 + 1074) ?= Z.pos m2 * 2 ^ (e2 + 1074)).
Proof.
  intros H1 H2.
  apply valid_finite in H1 as (He1 & Hd1 & Hc1).
  apply valid_finite in H2 as (He2 & Hd2 & Hc2).
  pose proof (digits_bounds m1) as [Hlo1 Hhi1].
  pose proof (digits_bounds m2) as [Hlo2 Hhi2].
  assert (forall m, Z.pos (digits2_pos m) <= 53 -> Z.pos m < 2 ^ 53) as Hlt.
  { intros m Hm. pose proof (digits_bounds m) as [_ Hhi].
    eapply Z.lt_le_trans; [exact Hhi|]. apply Z.pow_le_mono_r; lia. }
  assert (forall e e', -1074 <= e < e' ->
            2 * 2 ^ (e + 1074) <= 2 ^ (e' + 1074)) as Hpow.
  { intros e e' He. rewrite <- Z.pow_succ_r by lia.
    apply Z.pow_le_mono_r; lia. }
  destruct (Z.compare_spec e1 e2) as [->|Hlt12|Hlt21].
  - change (Pos.compare_cont Eq m1 m2) with (Z.pos m1 ?= Z.pos m2).
    symmetry. apply mul_compare_r. apply Z.pow_pos_nonneg; lia.
  - symmetry. apply Z.compare_lt_iff.
    assert (Z.pos (digits2_pos m2) = 53) as Hd by lia.
    rewrite Hd in Hlo2. change (2 ^ (53 - 1)) with (2 ^ 52) in Hlo2.
    specialize (Hlt m1 Hd1). specialize (Hpow e1 e2 ltac:(lia)).
    assert (0 < 2 ^ (e1 + 1074)) by (apply Z.pow_pos_nonneg; lia).
    change (2 ^ 53) with (2 * 2 ^ 52) in Hlt.
    generalize dependent (2 ^ 52). generalize dependent (2 ^ (e1 + 1074)).
    generalize dependent (2 ^ (e2 + 1074)). intros. nia.
  - symmetry. apply Z.compare_gt_iff.
    assert (Z.pos (digits2_pos m1) = 53) as Hd by lia.
    rewrite Hd in Hlo1. change (2 ^ (53 - 1)) with (2 ^ 52) in Hlo1.
    specialize (Hlt m2 Hd2). specialize (Hpow e2 e1 ltac:(lia)).
    assert (0 < 2 ^ (e2 + 1074)) by (apply Z.pow_pos_nonneg; lia).
    change (2 ^ 53) with (2 * 2 ^ 52) in Hlt.
    generalize dependent (2 ^ 52). generalize dependent (2 ^ (e1 + 1074)).
    generalize dependent (2 ^ (e2 + 1074)). intros. nia.
Qed.

(** Two finite doubles compare as their values do. *)
Lemma compare_scaled x y :
  valid x = true -> valid y = true ->
  is_finite x = true -> is_finite y = true ->
  SFcompare x y = Some (scaled x ?= scaled y).
Proof.
  intros Hx Hy Hfx Hfy.
  destruct x as [sx|sx| |sx mx ex], y as [sy|sy| |sy my ey]; try done;
    cbv beta iota zeta delta [SFcompare scaled].
  - f_equal. apply valid_finite in Hy as (He & _).
    assert (0 < Z.pos my * 2 ^ (ey + 1074))
      by (apply Z.mul_pos_pos; [lia|apply Z.pow_pos_nonneg; lia]).
    destruct sy; symmetry; [apply Z.compare_gt_iff|apply Z.compare_lt_iff]; lia.
  - f_equal. apply valid_finite in Hx as (He & _).
    assert (0 < Z.pos mx * 2 ^ (ex + 1074))
      by (apply Z.mul_pos_pos; [lia|apply Z.pow_pos_nonneg; lia]).
    destruct sx; symmetry; [apply Z.compare_lt_iff|apply Z.compare_gt_iff]; lia.
  - f_equal.
    pose proof (compare_magnitudes mx ex my ey Hx Hy) as Hm.
    pose proof (valid_finite _ _ _ Hx) as (Hex & _).
    pose proof (valid_finite _ _ _ Hy) as (Hey & _).
    assert (0 < Z.pos mx * 2 ^ (ex + 1074))
      by (apply Z.mul_pos_pos; [lia|apply Z.pow_pos_nonneg; lia]).
    assert (0 < Z.pos my * 2 ^ (ey + 1074))
      by (apply Z.mul_pos_pos; [lia|apply Z.pow_pos_nonneg; lia]).
    destruct sx, sy.
    + rewrite Z.compare_opp, (Z.compare_antisym _ (Z.pos my * _)), <- Hm.
      by destruct (ex ?= ey).
    + symmetry. apply Z.compare_lt_iff. lia.
    + symmetry. apply Z.compare_gt_iff. lia.
    + exact Hm.
Qed.

(** A finite double compares with an int as its value does. *)
Lemma compare_int_scaled x n :
  valid x = true -> is_finite x = true ->
  compare_int x n = Some (scaled x ?= n * 2 ^ 1074).
Proof.
  intros Hx Hfx. destruct x as [s|s| |s m e]; try done;
    cbv beta iota zeta delta [compare_int scaled]; f_equal.
  - rewrite <- (mul_compare_r 0 n (2 ^ 1074)) by done. done.
  - apply valid_finite in Hx as (He & _).
    assert (scaled (S754_finite s m e)
            = (if s then Z.neg m else Z.pos m) * 2 ^ (e + 1074)) as Hs
      by (destruct s; cbv beta iota zeta delta [scaled]; lia).
    cbv beta iota zeta delta [scaled] in Hs. rewrite Hs. clear Hs.
    destruct (Z.leb_spec 0 e).
    + rewrite Z.pow_add_r, Z.mul_assoc by lia.
      symmetry. by apply mul_compare_r.
    + replace (n * 2 ^ 1074) with (n * 2 ^ (- e) * 2 ^ (e + 1074)).
      * symmetry. apply mul_compare_r. apply Z.pow_pos_nonneg; lia.
      * rewrite <- Z.mul_assoc, <- Z.pow_add_r by lia. f_equal. f_equal. lia.
Qed.


(** ** Conversion of an int *)

(** [float(n)] is exact for [|n| <= 2^53]. *)
Lemma of_int_exact n :
  Z.abs n <= 2 ^ 53 ->
  exists x, of_int n = Ok x /\ valid x = true /\ is_finite x = true /\
            scaled x = n * 2 ^ 1074.
Proof.
  intros Hn.
  assert (forall s p, Z.pos p <= 2 ^ 53 ->
            exists m e,
              binary_round prec emax s p 0 = S754_finite s m e /\
              valid (S754_finite s m e) = true /\
              Z.pos m * 2 ^ (e + 1074) = Z.pos p * 2 ^ 1074) as Hround.
  { intros s p Hp. destruct (Z.eq_dec (Z.pos p) (2 ^ 53)) as [Heq|Hne].
    - assert (p = 9007199254740992%positive) as -> by (injection Heq; done).
      exists 4503599627370496%positive, 1. by destruct s; vm_compute.
    - destruct (binary_round_exact s p ltac:(lia)) as (m & e & -> & Hm & He & Hd).
      exists m, e. split; [done|]. split; [apply finite_valid; lia|].
      rewrite Hm, <- Z.mul_assoc, <- Z.pow_add_r by lia.
      f_equal. f_equal. lia. }
  destruct n as [|p|p]; unfold of_int; cbn [binary_normalize].
  - exists (S754_zero false). done.
  - destruct (Hround false p ltac:(lia)) as (m & e & -> & Hv & Hs).
    exists (S754_finite false m e). done.
  - destruct (Hround true p ltac:(lia)) as (m & e & -> & Hv & Hs).
    exists (S754_finite true m e). repeat split; try done.
    cbv beta iota zeta delta [scaled]. lia.
Qed.


(** ** Halving an int *)

Lemma binary_round_aux_finish s m e l :
  binary_round_aux prec emax s m e l =
  let '(mrs, e') := shr_fexp prec emax m e l in
  finish s (round_nearest_even (shr_m mrs) (loc_of_shr_record mrs)) e'.
Proof. unfold binary_round_aux, finish. by destruct (shr_fexp _ _ _ _ _). Qed.

Lemma finish_canonical s m e :
  Z.pos (digits2_pos m) = 53 -> -1074 <= e <= 971 ->
  finish s (Z.pos m) e = S754_finite s m e.
Proof.
  intros Hd He. unfold finish, shr_fexp. simpl Zdigits2. rewrite Hd, fexp_eq.
  replace (Z.max (53 + e - 53) (-1074) - e) with 0 by lia. simpl.
  assert ((e <=? emax - prec) = true) as ->
    by (apply Z.leb_le; unfold emax, prec; lia).
  done.
Qed.

(** A mantissa that rounding has carried to [2^53] is renormalised. *)
Lemma finish_carry s e :
  -1074 <= e <= 970 ->
  finish s (2 ^ 53) e = S754_finite s (2 ^ 52) (e + 1).
Proof.
  intros He. unfold finish, shr_fexp.
  change (Zdigits2 (2 ^ 53)) with 54. rewrite fexp_eq.
  replace (Z.max (54 + e - 53) (-1074) - e) with 1 by lia.
  change (2 ^ 53) with 9007199254740992. simpl.
  assert ((e + 1 <=? emax - prec) = true) as ->
    by (apply Z.leb_le; unfold emax, prec; lia).
  done.
Qed.

Lemma shr_1_exact q :
  shr_1 (Build_shr_record (Z.pos q) false false)
  = Build_shr_record (Z.div2 (Z.pos q)) (Z.odd (Z.pos q)) false.
Proof. by destruct q. Qed.

(** Rounding a 54-digit mantissa [q]: the result is [q], or one of its two
    even neighbours when [q] is odd. *)
Lemma round_aux_54 s q e :
  Z.pos (digits2_pos q) = 54 -> -1074 <= e <= 969 ->
  exists x r,
    binary_round_aux prec emax s (Z.pos q) e loc_Exact = x /\
    valid x = true /\ is_finite x = true /\
    scaled x = (if s then - r else r) * 2 ^ (e + 1074) /\
    Z.pos q - 1 <= r <= Z.pos q + 1 /\
    (Z.even (Z.pos q) = true -> r = Z.pos q).
Proof.
  intros Hd He. pose proof (digits_bounds q) as [Hlo Hhi].
  rewrite Hd in Hlo, Hhi. change (2 ^ (54 - 1)) with (2 * 2 ^ 52) in Hlo.
  change (2 ^ 54) with (4 * 2 ^ 52) in Hhi.
  rewrite binary_round_aux_finish. unfold shr_fexp. simpl Zdigits2.
  rewrite Hd, fexp_eq.
  replace (Z.max (54 + e - 53) (-1074) - e) with 1 by lia.
  cbn [shr_record_of_loc shr SpecFloat.iter_pos]. rewrite shr_1_exact.
  cbn [shr_m loc_of_shr_record].
  pose proof (Z.div2_odd (Z.pos q)) as Hq.
  set (h := Z.div2 (Z.pos q)) in *.
  assert (2 ^ (e + 1 + 1074) = 2 * 2 ^ (e + 1074)) as Hpow.
  { replace (e + 1 + 1074) with (Z.succ (e + 1074)) by lia.
    apply Z.pow_succ_r. lia. }
  (* the result for a rounded mantissa [m] of 53 digits *)
  assert (forall m, 2 ^ 52 <= m < 2 * 2 ^ 52 ->
            exists x, finish s m (e + 1) = x /\ valid x = true /\
                      is_finite x = true /\
                      scaled x = (if s then - (2 * m) else 2 * m)
                                 * 2 ^ (e + 1074)) as Hfin.
  { intros m Hm. destruct m as [|m|m]; try lia.
    assert (Z.pos (digits2_pos m) = 53) as Hdm
      by (apply digits_unique; change (2 ^ (53 - 1)) with (2 ^ 52);
          change (2 ^ 53) with (2 * 2 ^ 52); lia).
    rewrite finish_canonical by lia.
    eexists. split; [done|]. split; [apply finite_valid; lia|].
    split; [done|]. cbv beta iota zeta delta [scaled]. rewrite Hpow.
    destruct s; lia. }
  (* the result for a rounded mantissa carried to [2^53] *)
  assert (exists x, finish s (2 ^ 53) (e + 1) = x /\ valid x = true /\
                    is_finite x = true /\
                    scaled x = (if s then - (2 * 2 ^ 53) else 2 * 2 ^ 53)
                               * 2 ^ (e + 1074)) as Hcarry.
  { rewrite finish_carry by lia. eexists. split; [done|].
    split; [apply finite_valid; [done|lia]|]. split; [done|].
    cbv beta iota zeta delta [scaled].
    replace (e + 1 + 1 + 1074) with (Z.succ (Z.succ (e + 1074))) by lia.
    rewrite !Z.pow_succ_r by lia.
    change (Z.pos (2 ^ 52)) with (2 ^ 52). change (2 ^ 53) with (2 * 2 ^ 52).
    destruct s; lia. }
  destruct (Z.odd (Z.pos q)) eqn:Hodd.
  - (* a tie: round to even *)
    assert (Z.even (Z.pos q) = false) as Heven
      by (rewrite <- Z.negb_odd, Hodd; done).
    cbn [round_nearest_even]. change (Z.b2z true) with 1 in Hq.
    destruct (Z.even h) eqn:Hh.
    + destruct (Hfin h ltac:(lia)) as (x & Hx & Hv & Hf & Hs).
      exists x, (2 * h). rewrite Hs. repeat split; try done; try lia.
      congruence.
    + destruct (Z.eq_dec (h + 1) (2 ^ 53)) as [Heq|Hne].
      * rewrite Heq. destruct Hcarry as (x & Hx & Hv & Hf & Hs).
        exists x, (2 * 2 ^ 53). rewrite Hs. repeat split; try done; try lia.
        congruence.
      * change (2 ^ 53) with (2 * 2 ^ 52) in Hne.
        destruct (Hfin (h + 1) ltac:(lia)) as (x & Hx & Hv & Hf & Hs).
        exists x, (2 * (h + 1)). rewrite Hs.
        repeat split; try done; try lia. congruence.
  - change (Z.b2z false) with 0 in Hq. cbn [round_nearest_even].
    destruct (Hfin h ltac:(lia)) as (x & Hx & Hv & Hf & Hs).
    exists x, (2 * h). rewrite Hs. repeat split; try done; lia.
Qed.


Lemma div_eucl_2 a : Z.div_eucl (2 * a) 2 = (a, 0).
Proof.
  pose proof (Z.div_mul a 2 ltac:(done)) as Hd.
  pose proof (Z.mod_mul a 2 ltac:(done)) as Hm.
  rewrite (Z.mul_comm a 2) in Hd, Hm.
  unfold Z.div, Z.modulo in Hd, Hm.
  destruct (Z.div_eucl (2 * a) 2). simpl in *. congruence.
Qed.

(** The quotient by 2 that [SFdiv_core_binary] hands to the rounding: a
    54-digit mantissa, exact. *)
Lemma div_core_2 p :
  let d := Z.pos (digits2_pos p) in
  d <= 54 ->
  SFdiv_core_binary prec emax (Z.pos p) 0 2 0
  = (Z.pos p * 2 ^ (54 - d), d - 55, loc_Exact).
Proof.
  intros d Hd. unfold SFdiv_core_binary.
  change (Zdigits2 (Z.pos p)) with d. change (Zdigits2 2) with 2.
  rewrite fexp_eq.
  replace (Z.min (Z.max (d + 0 - (2 + 0) - 53) (-1074)) (0 - 0))
    with (d - 55) by (subst d; lia).
  replace (0 - 0 - (d - 55)) with (55 - d) by lia.
  destruct (55 - d) as [|k|k] eqn:Hk; [lia| |lia].
  rewrite Z.shiftl_mul_pow2 by lia.
  replace (Z.pos p * 2 ^ Z.pos k) with (2 * (Z.pos p * 2 ^ (54 - d))).
  - by rewrite div_eucl_2.
  - replace (Z.pos k) with (Z.succ (54 - d)) by lia.
    rewrite Z.pow_succ_r by lia. lia.
Qed.

(** [n / 2] for [|n| <= 2^54] is [n / 2] when [n] is even, and one of the
    two integers next to it otherwise: [r] is twice the result. *)
Lemma truediv_2 n :
  Z.abs n <= 2 ^ 54 ->
  exists x r,
    truediv n 2 = Ok x /\ valid x = true /\ is_finite x = true /\
    scaled x = r * 2 ^ 1073 /\
    n - 1 <= r <= n + 1 /\
    (Z.even n = true -> r = n).
Proof.
  intros Hn.
  assert (forall s p, Z.pos p <= 2 ^ 54 ->
            exists x r,
              (let '(mz, ez, lz) :=
                 SFdiv_core_binary prec emax (Z.pos p) 0 2 0 in
               checked (binary_round_aux prec emax s mz ez lz)) = Ok x /\
              valid x = true /\ is_finite x = true /\
              scaled x = (if s then - r else r) * 2 ^ 1073 /\
              Z.pos p - 1 <= r <= Z.pos p + 1 /\
              (Z.even (Z.pos p) = true -> r = Z.pos p)) as Hpos.
  { intros s p Hp. destruct (Z.eq_dec (Z.pos p) (2 ^ 54)) as [Heq|Hne].
    { assert (p = 18014398509481984%positive) as -> by (injection Heq; done).
      exists (S754_finite s (2 ^ 52) 1), (2 ^ 54).
      by destruct s; vm_compute. }
    pose proof (digits_bounds p) as [Hlo Hhi].
    set (d := Z.pos (digits2_pos p)) in *.
    assert (1 <= d <= 54) as Hd.
    { split; [subst d; lia|].
      assert (d - 1 < 54); [|lia]. apply (Z.pow_lt_mono_r_iff 2); lia. }
    rewrite div_core_2 by (fold d; lia). fold d.
    assert (0 < 2 ^ (54 - d)) as Hpow by (apply Z.pow_pos_nonneg; lia).
    destruct (Z.pos p * 2 ^ (54 - d)) as [|q|q] eqn:Hq; try lia.
    assert (Z.pos (digits2_pos q) = 54) as Hdq.
    { apply digits_unique. rewrite <- Hq.
      assert (2 ^ (54 - 1) = 2 ^ (d - 1) * 2 ^ (54 - d)) as ->
        by (rewrite <- Z.pow_add_r by lia; f_equal; lia).
      assert (2 ^ 54 = 2 ^ d * 2 ^ (54 - d)) as ->
        by (rewrite <- Z.pow_add_r by lia; f_equal; lia).
      nia. }
    destruct (round_aux_54 s q (d - 55) Hdq ltac:(lia))
      as (x & r & -> & Hv & Hf & Hs & Hr & He).
    assert (Z.pos q * 2 ^ (d - 55 + 1074) = Z.pos p * 2 ^ 1073) as Hval.
    { rewrite <- Hq, <- Z.mul_assoc, <- Z.pow_add_r by lia.
      f_equal. f_equal. lia. }
    destruct (Z.eq_dec d 54) as [Hd54|Hd54].
    - (* no shift: [q] is [p] *)
      rewrite Hd54 in *. change (2 ^ (54 - 54)) with 1 in Hq.
      assert (Z.pos q = Z.pos p) as Hqp by lia.
      exists x, r. unfold checked. rewrite Hf, Hs.
      change (54 - 55 + 1074) with 1073. rewrite <- Hqp.
      repeat split; try done; lia.
    - (* [q] is even: the quotient is exact *)
      assert (Z.even (Z.pos q) = true) as Heven.
      { rewrite <- Hq. replace (54 - d) with (Z.succ (53 - d)) by lia.
        rewrite Z.pow_succ_r by lia.
        replace (Z.pos p * (2 * 2 ^ (53 - d)))
          with (2 * (Z.pos p * 2 ^ (53 - d))) by lia.
        apply Z.even_even. }
      specialize (He Heven). subst r.
      exists x, (Z.pos p). unfold checked. rewrite Hf, Hs.
      repeat split; try done; try lia.
      destruct s; lia. }
  unfold truediv. change (2 =? 0) with false. cbv iota.
  destruct n as [|p|p].
  - exists (S754_zero false), 0. done.
  - destruct (Hpos false p ltac:(lia)) as (x & r & Hx & Hv & Hf & Hs & Hr & He).
    exists x, r. done.
  - destruct (Hpos true p ltac:(lia)) as (x & r & Hx & Hv & Hf & Hs & Hr & He).
    exists x, (- r). repeat split; try done; try lia.
    intros Heven.
    change (Z.even (Z.neg p)) with (Z.even (Z.pos p)) in Heven.
    rewrite (He Heven). done.
Qed.


(** ** Rounding never overflows on a small enough number *)

Lemma Zdigits2_nonneg m : 0 <= Zdigits2 m.
Proof. destruct m; simpl; lia. Qed.

Lemma shr_1_digits r :
  0 <= shr_m r ->
  0 <= shr_m (shr_1 r) /\
  Zdigits2 (shr_m (shr_1 r)) = Z.max 0 (Zdigits2 (shr_m r) - 1).
Proof.
  destruct r as [m r s]. simpl. intros Hm.
  destruct m as [|[p|p|]|]; simpl; lia.
Qed.

Lemma iter_shr_1_digits p r :
  0 <= shr_m r ->
  0 <= shr_m (SpecFloat.iter_pos shr_1 p r) /\
  Zdigits2 (shr_m (SpecFloat.iter_pos shr_1 p r))
  = Z.max 0 (Zdigits2 (shr_m r) - Z.pos p).
Proof.
  revert r. induction p as [p IH|p IH|]; intros r Hr; cbn [SpecFloat.iter_pos].
  - destruct (shr_1_digits r Hr) as [H1 E1].
    destruct (IH _ H1) as [H2 E2]. destruct (IH _ H2) as [H3 E3].
    split; [done|]. rewrite E3, E2, E1. pose proof (Zdigits2_nonneg (shr_m r)).
    lia.
  - destruct (IH _ Hr) as [H2 E2]. destruct (IH _ H2) as [H3 E3].
    split; [done|]. rewrite E3, E2. pose proof (Zdigits2_nonneg (shr_m r)).
    lia.
  - destruct (shr_1_digits r Hr) as [H1 E1]. split; [done|].
    rewrite E1. lia.
Qed.

Lemma shr_m_of_loc m l : shr_m (shr_record_of_loc m l) = m.
Proof. by destruct l as [|[]]. Qed.

(** Shifting to the exponent that [fexp] asks for keeps a small number
    small. *)
Lemma shr_fexp_small m e l :
  0 <= m -> e <= 971 -> Zdigits2 m + e <= 1024 ->
  let '(mrs, e') := shr_fexp prec emax m e l in
  0 <= shr_m mrs /\ e' <= 971 /\ Zdigits2 (shr_m mrs) + e' <= 1024.
Proof.
  intros Hm He Hd. unfold shr_fexp, shr. rewrite fexp_eq.
  pose proof (Zdigits2_nonneg m).
  destruct (Z.max (Zdigits2 m + e - 53) (-1074) - e) as [|p|p] eqn:Hn;
    rewrite ?shr_m_of_loc; try done.
  destruct (iter_shr_1_digits p (shr_record_of_loc m l)) as [H1 E1];
    rewrite ?shr_m_of_loc; [done|].
  rewrite shr_m_of_loc in E1. rewrite E1. lia.
Qed.

Lemma round_nearest_even_digits m l :
  0 <= m ->
  0 <= round_nearest_even m l /\
  Zdigits2 (round_nearest_even m l) <= Zdigits2 m + 1.
Proof.
  intros Hm. pose proof (Zdigits2_bound m Hm) as Hlt.
  pose proof (Zdigits2_nonneg m) as Hd.
  assert (2 ^ (Zdigits2 m + 1) = 2 * 2 ^ Zdigits2 m) as Hpow
    by (rewrite Z.pow_add_r by lia; lia).
  assert (forall m', m <= m' <= m + 1 ->
            0 <= m' /\ Zdigits2 m' <= Zdigits2 m + 1) as Hle.
  { intros m' Hm'. split; [lia|]. apply Zdigits2_le; lia. }
  destruct l as [|[]]; simpl; try destruct (Z.even m); apply Hle; lia.
Qed.

Lemma finish_finite s m e :
  0 <= m -> e <= 971 -> Zdigits2 m + e <= 1024 ->
  is_finite (finish s m e) = true.
Proof.
  intros Hm He Hd. unfold finish.
  pose proof (shr_fexp_small m e loc_Exact Hm He Hd) as Hs.
  destruct (shr_fexp prec emax m e loc_Exact) as [mrs e'].
  destruct Hs as (Hm' & He' & _).
  destruct (shr_m mrs); [done| |lia].
  assert ((e' <=? emax - prec) = true) as ->
    by (apply Z.leb_le; unfold emax, prec; lia).
  done.
Qed.

(** [binary_round_aux] returns a finite double whenever its input is below
    [2^1023]. *)
Lemma round_aux_finite s m e l :
  0 <= m -> e <= 971 -> Zdigits2 m + e <= 1023 ->
  is_finite (binary_round_aux prec emax s m e l) = true.
Proof.
  intros Hm He Hd. rewrite binary_round_aux_finish.
  pose proof (shr_fexp_small m e l Hm He ltac:(lia)) as Hs.
  assert (let '(mrs, e') := shr_fexp prec emax m e l in
          Zdigits2 (shr_m mrs) + e' <= 1023) as Hs'.
  { unfold shr_fexp, shr. rewrite fexp_eq.
    pose proof (Zdigits2_nonneg m).
    destruct (Z.max (Zdigits2 m + e - 53) (-1074) - e) as [|p|p] eqn:Hn;
      rewrite ?shr_m_of_loc; try done.
    destruct (iter_shr_1_digits p (shr_record_of_loc m l)) as [H1 E1];
      rewrite ?shr_m_of_loc; [done|].
    rewrite shr_m_of_loc in E1. rewrite E1. lia. }
  destruct (shr_fexp prec emax m e l) as [mrs e'].
  destruct Hs as (Hm' & He' & _).
  destruct (round_nearest_even_digits (shr_m mrs) (loc_of_shr_record mrs) Hm')
    as [Hr Hdr].
  apply finish_finite; lia.
Qed.

Lemma div_eucl_div_mod a b : Z.div_eucl a b = (a / b, a mod b).
Proof. unfold Z.div, Z.modulo. by destruct (Z.div_eucl a b). Qed.

(** [a / b] does not overflow when the quotient is below [2^1000]. *)
Lemma truediv_finite a b :
  b <> 0 -> Z.abs a < Z.abs b * 2 ^ 1000 ->
  exists x, truediv a b = Ok x.
Proof.
  intros Hb Hab. unfold truediv.
  assert ((b =? 0) = false) as -> by by apply Z.eqb_neq.
  destruct (Z.eq_dec a 0) as [->|Ha]; [by eexists|].
  assert (forall s, exists x,
            (let '(mz, ez, lz) :=
               SFdiv_core_binary prec emax (Z.abs a) 0 (Z.abs b) 0 in
             checked (binary_round_aux prec emax s mz ez lz)) = Ok x)
    as Hcore; [|destruct a; [done|apply Hcore|apply Hcore]].
  intros s.
  set (A := Z.abs a) in *. set (B := Z.abs b) in *.
  assert (0 < A) as HA by (subst A; lia).
  assert (0 < B) as HB by (subst B; lia).
  unfold SFdiv_core_binary. rewrite fexp_eq, !Z.add_0_r, Z.sub_0_r.
  set (d1 := Zdigits2 A). set (d2 := Zdigits2 B).
  set (e' := Z.min (Z.max (d1 - d2 - 53) (-1074)) 0).
  assert (e' <= 0) as He' by (subst e'; lia).
  pose proof (Zdigits2_bound A ltac:(lia)) as HA2. fold d1 in HA2.
  assert (2 ^ (d1 - 1) <= A /\ 2 ^ (d2 - 1) <= B /\ 1 <= d1 /\ 1 <= d2)
    as (HA1 & HB1 & Hd1 & Hd2).
  { subst d1 d2. destruct A as [|pa|pa], B as [|pb|pb]; try lia.
    simpl. pose proof (digits_bounds pa). pose proof (digits_bounds pb). lia. }
  assert (d1 - d2 <= 1000) as Hdd.
  { assert (B < 2 ^ d2) by (apply Zdigits2_bound; lia).
    assert (2 ^ (d1 - 1) < 2 ^ (d2 + 1000)).
    { rewrite Z.pow_add_r by lia.
      assert (0 < 2 ^ 1000) by done.
      generalize dependent (2 ^ 1000). intros. nia. }
    assert (d1 - 1 < d2 + 1000) by (apply (Z.pow_lt_mono_r_iff 2); lia).
    lia. }
  set (m' := match 0 - e' with
             | 0 => A
             | Z.pos _ => Z.shiftl A (0 - e')
             | Z.neg _ => 0
             end).
  assert (m' = A * 2 ^ (- e')) as Hm'.
  { subst m'. replace (0 - e') with (- e') by lia.
    destruct (- e') as [|k|k] eqn:Hk; [simpl; lia| |lia].
    apply Z.shiftl_mul_pow2. lia. }
  rewrite div_eucl_div_mod.
  set (q := m' / B).
  assert (0 < 2 ^ (- e')) as Hpe by (apply Z.pow_pos_nonneg; lia).
  assert (0 <= q) as Hq0 by (apply Z.div_pos; nia).
  assert (B * q <= m') as Hq1 by (apply Z.mul_div_le; lia).
  assert (Zdigits2 q + e' <= 1023) as Hdq.
  { set (k := d1 - e' - d2 + 1).
    destruct (Z.eq_dec q 0) as [->|Hq]; [simpl; lia|].
    assert (0 <= k) as Hk.
    { destruct (Z.lt_ge_cases k 0); [|done].
      assert (2 ^ (d1 - e') <= 2 ^ (d2 - 1))
        by (apply Z.pow_le_mono_r; lia).
      assert (m' < 2 ^ (d1 - e')).
      { rewrite Hm'. replace (d1 - e') with (d1 + - e') by lia.
        rewrite Z.pow_add_r by lia. nia. }
      nia. }
    assert (q < 2 ^ k).
    { assert (q * 2 ^ (d2 - 1) < 2 ^ k * 2 ^ (d2 - 1)); [|nia].
      rewrite <- Z.pow_add_r by lia.
      replace (k + (d2 - 1)) with (d1 + - e') by lia.
      rewrite Z.pow_add_r by lia. nia. }
    pose proof (Zdigits2_le q k Hk ltac:(lia)). lia. }
  pose proof (round_aux_finite s q e'
                (new_location B (m' mod B)) Hq0 ltac:(lia) Hdq) as Hfin.
  unfold checked. rewrite Hfin. by eexists.
Qed.


(** ** Comparisons through the represented values *)

Lemma scale_pos : 0 < 2 ^ 1074.
Proof. done. Qed.

Lemma leb_represents x y a b :
  represents x a -> represents y b -> a <= b -> leb x y = true.
Proof.
  intros (Hvx & Hfx & <-) (Hvy & Hfy & <-) Hab. unfold leb, SFleb.
  rewrite (compare_scaled x y) by done.
  destruct (Z.compare_spec (scaled x) (scaled y)); [done|done|lia].
Qed.

Lemma ltb_represents x y a b :
  represents x a -> represents y b -> a < b -> ltb x y = true.
Proof.
  intros (Hvx & Hfx & <-) (Hvy & Hfy & <-) Hab. unfold ltb, SFltb.
  rewrite (compare_scaled x y) by done.
  destruct (Z.compare_spec (scaled x) (scaled y)); [lia|done|lia].
Qed.

Lemma compare_int_represents x a n :
  represents x (a * 2 ^ 1074) -> compare_int x n = Some (a ?= n).
Proof.
  intros (Hv & Hf & Hs). rewrite compare_int_scaled, Hs by done.
  f_equal. apply mul_compare_r, scale_pos.
Qed.

Lemma leb_int_represents x a n :
  represents x (a * 2 ^ 1074) -> a <= n -> leb_int x n = true.
Proof.
  intros Hx Han. unfold leb_int. rewrite (compare_int_represents x a n Hx).
  destruct (Z.compare_spec a n); [done|done|lia].
Qed.

Lemma int_leb_represents x a n :
  represents x (a * 2 ^ 1074) -> n <= a -> int_leb n x = true.
Proof.
  intros Hx Han. unfold int_leb. rewrite (compare_int_represents x a n Hx).
  destruct (Z.compare_spec a n); [done|lia|done].
Qed.

Lemma eqb_int_represents x a n :
  represents x (a * 2 ^ 1074) -> eqb_int x n = (a =? n).
Proof.
  intros Hx. unfold eqb_int. rewrite (compare_int_represents x a n Hx).
  rewrite Z.eqb_compare. by destruct (a ?= n).
Qed.

Lemma of_int_represents n :
  exact_int n -> exists x, of_int n = Ok x /\ represents x (n * 2 ^ 1074).
Proof.
  intros Hn. destruct (of_int_exact n Hn) as (x & Hx & Hv & Hf & Hs).
  by exists x.
Qed.

End FloatFacts.

(** * The statistics engine *)

Section Statistics.

Import Float FloatFacts.

Lemma list_min_spec ys y :
  list_min y ys ∈ y :: ys /\ forall x, x ∈ y :: ys -> list_min y ys <= x.
Proof.
  unfold list_min. revert y. induction ys as [|z ys IH]; intros y; simpl.
  - split; [apply list_elem_of_here|].
    intros x Hx. apply list_elem_of_singleton in Hx. lia.
  - destruct (IH (Z.min y z)) as [Hin Hle]. split.
    + apply elem_of_cons in Hin as [Heq|Hin].
      * rewrite Heq. destruct (Z.min_spec y z) as [[_ ->]|[_ ->]].
        -- apply list_elem_of_here.
        -- apply list_elem_of_further, list_elem_of_here.
      * by do 2 apply list_elem_of_further.
    + intros x Hx.
      assert (foldl Z.min (Z.min y z) ys <= Z.min y z)
        by (apply Hle, list_elem_of_here).
      apply elem_of_cons in Hx as [->|Hx]; [lia|].
      apply elem_of_cons in Hx as [->|Hx]; [lia|].
      by apply Hle, list_elem_of_further.
Qed.

Lemma list_max_spec ys y :
  list_max y ys ∈ y :: ys /\ forall x, x ∈ y :: ys -> x <= list_max y ys.
Proof.
  unfold list_max. revert y. induction ys as [|z ys IH]; intros y; simpl.
  - split; [apply list_elem_of_here|].
    intros x Hx. apply list_elem_of_singleton in Hx. lia.
  - destruct (IH (Z.max y z)) as [Hin Hle]. split.
    + apply elem_of_cons in Hin as [Heq|Hin].
      * rewrite Heq. destruct (Z.max_spec y z) as [[_ ->]|[_ ->]].
        -- apply list_elem_of_further, list_elem_of_here.
        -- apply list_elem_of_here.
      * by do 2 apply list_elem_of_further.
    + intros x Hx.
      assert (Z.max y z <= foldl Z.max (Z.max y z) ys)
        by (apply Hle, list_elem_of_here).
      apply elem_of_cons in Hx as [->|Hx]; [lia|].
      apply elem_of_cons in Hx as [->|Hx]; [lia|].
      by apply Hle, list_elem_of_further.
Qed.

Lemma sorted_Permutation l : sorted l ≡ₚ l.
Proof. apply merge_sort_Permutation. Qed.

Lemma sorted_length l : length (sorted l) = length l.
Proof. by rewrite sorted_Permutation. Qed.

Lemma StronglySorted_nth_le l i j :
  StronglySorted Z.le l -> (i <= j < length l)%nat ->
  nth i l 0 <= nth j l 0.
Proof.
  intros Hl. revert i j. induction Hl as [|x l Hl IH Hx]; intros i j Hij.
  - simpl in Hij. lia.
  - destruct i as [|i], j as [|j]; simpl in *; try lia.
    + rewrite Forall_forall in Hx. apply Hx.
      apply list_elem_of_In, nth_In. lia.
    + apply IH. lia.
Qed.

Lemma sorted_nth_le l i j :
  (i <= j < length l)%nat -> nth i (sorted l) 0 <= nth j (sorted l) 0.
Proof.
  intros Hij. apply StronglySorted_nth_le.
  - apply StronglySorted_merge_sort; apply _.
  - by rewrite sorted_length.
Qed.

Lemma sorted_nth_elem l i :
  (i < length l)%nat -> nth i (sorted l) 0 ∈ l.
Proof.
  intros Hi.
  assert (nth i (sorted l) 0 ∈ sorted l) as Hin
    by (apply list_elem_of_In, nth_In; by rewrite sorted_length).
  generalize dependent (nth i (sorted l) 0). intros x Hx.
  by rewrite sorted_Permutation in Hx.
Qed.

Lemma sum_bound l :
  Forall exact_int l -> Z.abs (int_sum l) <= Z.of_nat (length l) * 2 ^ 53.
Proof.
  unfold exact_int. induction 1 as [|x l Hx Hl IH]; [done|].
  change (int_sum (x :: l)) with (x + int_sum l).
  rewrite length_cons, Nat2Z.inj_succ. lia.
Qed.

(** On exact ints the mean is computed without overflow. *)
Lemma statistics_mean_ok l :
  l <> [] -> Forall exact_int l ->
  exists v x, statistics_mean l = Ok v /\ float_of_num v = Ok x.
Proof.
  intros Hne Hl. pose proof (sum_bound l Hl) as Hsum.
  unfold statistics_mean.
  set (total := int_sum l) in *. set (n := Z.of_nat (length l)) in *.
  assert (1 <= n) as Hn by (subst n; destruct l; [done|simpl; lia]).
  assert ((n <? 1) = false) as -> by by apply Z.ltb_ge.
  set (g := Z.gcd total n).
  assert (0 < g) as Hg.
  { pose proof (Z.gcd_nonneg total n).
    destruct (Z.eq_dec g 0) as [Hg0|]; [|lia].
    apply Z.gcd_eq_0_r in Hg0. lia. }
  destruct (Z.gcd_divide_l total n) as [a Ha].
  destruct (Z.gcd_divide_r total n) as [b Hb]. fold g in Ha, Hb.
  assert (total / g = a) as -> by (rewrite Ha; apply Z.div_mul; lia).
  assert (n / g = b) as -> by (rewrite Hb; apply Z.div_mul; lia).
  assert (0 < b) as Hb0 by nia.
  assert (Z.abs a <= b * 2 ^ 53) as Hab.
  { assert (Z.abs a * g <= b * 2 ^ 53 * g); [|nia].
    rewrite Ha, Hb, Z.abs_mul in Hsum. lia. }
  destruct (Z.eqb_spec b 1) as [->|Hb1].
  - destruct (of_int_exact a ltac:(lia)) as (x & Hx & _).
    exists (NInt a), x. done.
  - destruct (truediv_finite a b ltac:(lia)) as [x Hx].
    { assert (b * 2 ^ 53 < b * 2 ^ 1000); [|lia].
      apply Z.mul_lt_mono_pos_l; [done|]. done. }
    exists (NFloat x), x. rewrite Hx. done.
Qed.

(** On exact ints the median is computed without overflow, and it lies
    between any two bounds of the data: [r] is twice the median. *)
Lemma statistics_median_ok l lo hi :
  l <> [] -> Forall exact_int l ->
  (forall x, x ∈ l -> lo <= x <= hi) ->
  exists v x r,
    statistics_median l = Ok v /\ float_of_num v = Ok x /\
    represents x (r * 2 ^ 1073) /\ 2 * lo <= r <= 2 * hi.
Proof.
  intros Hne Hl Hbounds. unfold statistics_median.
  rewrite sorted_length.
  assert (0 < length l)%nat as Hlen by (destruct l; [done|simpl; lia]).
  assert (Nat.eqb (length l) 0 = false) as -> by (apply Nat.eqb_neq; lia).
  rewrite Forall_forall in Hl.
  assert (2 ^ 1074 = 2 * 2 ^ 1073) as Hpow by done.
  destruct (Nat.eqb_spec (length l mod 2) 1) as [Hodd|Heven].
  - set (med := nth (length l / 2) (sorted l) 0).
    assert (med ∈ l) as Hmed.
    { apply sorted_nth_elem. apply Nat.div_lt; lia. }
    destruct (of_int_exact med (Hl _ Hmed)) as (x & Hx & Hv & Hf & Hs).
    exists (NInt med), x, (2 * med). repeat split; try done.
    + rewrite Hs, Hpow. lia.
    + specialize (Hbounds _ Hmed). lia.
    + specialize (Hbounds _ Hmed). lia.
  - set (i := (length l / 2)%nat).
    assert (length l mod 2 = 0)%nat as Hmod.
    { pose proof (Nat.mod_upper_bound (length l) 2). lia. }
    assert (length l = 2 * i)%nat as Hi.
    { subst i. pose proof (Nat.div_mod_eq (length l) 2). lia. }
    set (a := nth (i - 1) (sorted l) 0). set (b := nth i (sorted l) 0).
    assert (a ∈ l) as Ha by (apply sorted_nth_elem; lia).
    assert (b ∈ l) as Hb by (apply sorted_nth_elem; lia).
    assert (a <= b) as Hab by (apply sorted_nth_le; lia).
    pose proof (Hl _ Ha) as Hea. pose proof (Hl _ Hb) as Heb.
    unfold exact_int in Hea, Heb.
    destruct (truediv_2 (a + b)) as (x & r & Hx & Hv & Hf & Hs & Hr & He).
    { change (2 ^ 54) with (2 * 2 ^ 53). lia. }
    exists (NFloat x), x, r. rewrite Hx. repeat split; try done.
    + pose proof (Hbounds _ Ha). pose proof (Hbounds _ Hb).
      destruct (Z.eq_dec a b) as [Heq|Hneq]; [|lia].
      rewrite He; [lia|]. rewrite Heq.
      replace (b + b) with (2 * b) by lia. apply Z.even_even.
    + pose proof (Hbounds _ Ha). pose proof (Hbounds _ Hb).
      destruct (Z.eq_dec a b) as [Heq|Hneq]; [|lia].
      rewrite He; [lia|]. rewrite Heq.
      replace (b + b) with (2 * b) by lia. apply Z.even_even.
Qed.


(** ** The counter and the modes *)

Lemma count_of_counter_add x y c :
  count_of y (counter_add x c)
  = if y =? x then S (count_of y c) else count_of y c.
Proof.
  induction c as [|[z k] c IH]; simpl.
  - by destruct (y =? x).
  - destruct (Z.eqb_spec x z) as [->|Hxz]; simpl.
    + by destruct (y =? z).
    + rewrite IH. destruct (Z.eqb_spec y z) as [->|Hyz]; [|done].
      destruct (Z.eqb_spec z x); [congruence|done].
Qed.

Lemma frequency_cons y x l :
  frequency y (x :: l)
  = ((if (y =? x)%Z then 1 else 0) + frequency y l)%nat.
Proof. unfold frequency. simpl. by destruct (y =? x). Qed.

Lemma count_of_foldl y l c :
  count_of y (foldl (fun c x => counter_add x c) c l)
  = (count_of y c + frequency y l)%nat.
Proof.
  revert c. induction l as [|x l IH]; intros c; simpl.
  - unfold frequency. simpl. lia.
  - rewrite IH, count_of_counter_add, frequency_cons.
    destruct (y =? x); lia.
Qed.

Lemma count_of_Counter y l : count_of y (Counter l) = frequency y l.
Proof. unfold Counter. by rewrite count_of_foldl. Qed.

Lemma keys_counter_add x y c :
  y ∈ map fst (counter_add x c) <-> y = x \/ y ∈ map fst c.
Proof.
  induction c as [|[z k] c IH]; simpl.
  - rewrite list_elem_of_singleton, elem_of_nil. tauto.
  - destruct (Z.eqb_spec x z) as [->|Hxz]; simpl.
    + rewrite elem_of_cons. tauto.
    + rewrite !elem_of_cons, IH. tauto.
Qed.

Lemma counter_add_ok x c : counter_ok c -> counter_ok (counter_add x c).
Proof.
  intros [Hnd Hpos]. induction c as [|[z k] c IH]; simpl.
  - split; [apply NoDup_singleton|]. repeat constructor.
  - apply NoDup_cons in Hnd as [Hz Hnd]. apply Forall_cons in Hpos as [Hk Hpos].
    simpl in *. destruct (Z.eqb_spec x z) as [->|Hxz]; simpl.
    + split; [by apply NoDup_cons|]. apply Forall_cons. simpl. split; [lia|done].
    + destruct (IH Hnd Hpos) as [Hnd' Hpos']. split.
      * apply NoDup_cons. split; [|done].
        rewrite keys_counter_add. intros [?|?]; simpl in *; [lia|done].
      * by apply Forall_cons.
Qed.

Lemma Counter_ok l : counter_ok (Counter l).
Proof.
  unfold Counter.
  assert (counter_ok []) as H by (split; constructor).
  revert H. generalize (@nil (Z * nat)).
  induction l as [|x l IH]; intros c Hc; simpl; [done|].
  by apply IH, counter_add_ok.
Qed.

Lemma counter_ok_elem c y k :
  counter_ok c -> (y, k) ∈ c <-> count_of y c = k /\ (0 < k)%nat.
Proof.
  intros [Hnd Hpos]. induction c as [|[z j] c IH]; simpl.
  - rewrite elem_of_nil. lia.
  - apply NoDup_cons in Hnd as [Hz Hnd]. apply Forall_cons in Hpos as [Hj Hpos].
    simpl in *. rewrite elem_of_cons, (IH Hnd Hpos).
    destruct (Z.eqb_spec y z) as [->|Hyz].
    + split.
      * intros [[= ->]|[Hc Hk]]; [done|].
        exfalso. apply Hz. apply list_elem_of_fmap. exists (z, k).
        split; [done|]. by apply (IH Hnd Hpos).
      * intros [-> _]. by left.
    + split; [|tauto]. intros [[= -> ->]|?]; [done|tauto].
Qed.

(** The entries of [Counter l]: each value of [l] with its frequency. *)
Lemma Counter_elem l y k :
  (y, k) ∈ Counter l <-> frequency y l = k /\ (0 < k)%nat.
Proof. by rewrite (counter_ok_elem _ _ _ (Counter_ok l)), count_of_Counter. Qed.

Lemma frequency_pos y l : (0 < frequency y l)%nat <-> y ∈ l.
Proof.
  induction l as [|x l IH].
  - unfold frequency. simpl. rewrite elem_of_nil. lia.
  - rewrite frequency_cons, elem_of_cons, <- IH.
    destruct (Z.eqb_spec y x); [|lia]. split; [auto|lia].
Qed.

Lemma max_value_spec c :
  (forall p, p ∈ c -> (p.2 <= max_value c)%nat) /\
  (c <> [] -> exists p, p ∈ c /\ p.2 = max_value c).
Proof.
  unfold max_value. induction c as [|p c [IH1 IH2]]; simpl.
  - split; [|done]. intros p Hp. by apply elem_of_nil in Hp.
  - split.
    + intros q Hq. apply elem_of_cons in Hq as [->|Hq]; [lia|].
      specialize (IH1 q Hq). lia.
    + intros _. destruct c as [|p' c].
      * exists p. split; [apply list_elem_of_here|]. simpl. lia.
      * destruct (IH2 ltac:(done)) as (q & Hq & Hmax).
        destruct (Nat.max_spec p.2 (foldr Nat.max 0%nat (map snd (p' :: c))))
          as [[_ ->]|[_ ->]].
        -- exists q. split; [by apply list_elem_of_further|done].
        -- exists p. split; [apply list_elem_of_here|done].
Qed.

(** The most frequent values of [l], as [calculate_statistics] lists them
    before it sorts them. *)
Lemma most_frequent_elem l z :
  l <> [] ->
  z ∈ map fst (List.filter
                 (fun nf => Nat.eqb nf.2 (max_value (Counter l))) (Counter l))
  <-> z ∈ l /\ forall y, (frequency y l <= frequency z l)%nat.
Proof.
  intros Hne. destruct (max_value_spec (Counter l)) as [Hle Hmax].
  destruct Hmax as ([w j] & Hw & Hj).
  { destruct l as [|x l]; [done|]. intros Hnil.
    assert ((x, frequency x (x :: l)) ∈ Counter (x :: l)) as Hin.
    { apply Counter_elem. split; [done|].
      apply frequency_pos, list_elem_of_here. }
    rewrite Hnil in Hin. by apply elem_of_nil in Hin. }
  simpl in Hj. apply Counter_elem in Hw as [Hw Hjpos].
  rewrite list_elem_of_fmap. split.
  - intros ([z' k] & -> & Hin). apply list_elem_of_In, filter_In in Hin.
    destruct Hin as [Hin Hk]. apply list_elem_of_In, Counter_elem in Hin.
    destruct Hin as [Hfreq Hpos]. simpl in *. apply Nat.eqb_eq in Hk.
    split; [apply frequency_pos; lia|].
    intros y. destruct (Nat.eq_dec (frequency y l) 0%nat) as [->|Hy]; [lia|].
    assert ((y, frequency y l) ∈ Counter l) as Hyin
      by (apply Counter_elem; lia).
    specialize (Hle _ Hyin). simpl in Hle. lia.
  - intros [Hz Hall]. exists (z, frequency z l). split; [done|].
    apply list_elem_of_In, filter_In. split.
    + apply list_elem_of_In, Counter_elem. split; [done|].
      by apply frequency_pos.
    + simpl. apply Nat.eqb_eq.
      assert ((z, frequency z l) ∈ Counter l) as Hzin.
      { apply Counter_elem. split; [done|]. by apply frequency_pos. }
      specialize (Hle _ Hzin). specialize (Hall w). simpl in Hle. lia.
Qed.

Lemma NoDup_keys_filter (f : Z * nat -> bool) c :
  NoDup (map fst c) -> NoDup (map fst (List.filter f c)).
Proof.
  induction c as [|p c IH]; simpl; [done|].
  intros [Hp Hnd]%NoDup_cons. destruct (f p); simpl; [|by apply IH].
  apply NoDup_cons. split; [|by apply IH].
  intros Hin. apply Hp. apply list_elem_of_fmap in Hin as (q & -> & Hq).
  apply list_elem_of_fmap. exists q. split; [done|].
  apply list_elem_of_In, filter_In in Hq as [Hq _]. by apply list_elem_of_In.
Qed.

Lemma StronglySorted_le_lt l :
  StronglySorted Z.le l -> NoDup l -> StronglySorted Z.lt l.
Proof.
  induction 1 as [|x l Hl IH Hx]; intros Hnd; constructor.
  - apply IH. by apply NoDup_cons in Hnd as [_ ?].
  - apply NoDup_cons in Hnd as [Hx' _].
    rewrite Forall_forall in *. intros y Hy.
    specialize (Hx y Hy). assert (x <> y) by congruence. lia.
Qed.


Lemma floats_of_exact ms :
  Forall exact_int ms ->
  exists xs, floats_of ms = Ok xs /\
             Forall2 (fun x z => represents x (z * 2 ^ 1074)) xs ms.
Proof.
  induction 1 as [|m ms Hm Hms (xs & Hxs & Hall)]; simpl.
  - by exists [].
  - destruct (of_int_represents m Hm) as (x & -> & Hx).
    exists (x :: xs). rewrite Hxs. split; [done|]. by constructor.
Qed.

Lemma int_modes_elem l z :
  l <> [] ->
  z ∈ int_modes l <-> z ∈ l /\ forall y, (frequency y l <= frequency z l)%nat.
Proof.
  intros Hne. unfold int_modes.
  by rewrite sorted_Permutation, most_frequent_elem.
Qed.

Lemma int_modes_nonempty l : l <> [] -> int_modes l <> [].
Proof.
  intros Hne Hnil.
  destruct (max_value_spec (Counter l)) as [_ Hmax].
  destruct Hmax as ([w j] & Hw & Hj).
  { destruct l as [|x l]; [done|]. intros Hc.
    assert ((x, frequency x (x :: l)) ∈ Counter (x :: l)) as Hin.
    { apply Counter_elem. split; [done|].
      apply frequency_pos, list_elem_of_here. }
    rewrite Hc in Hin. by apply elem_of_nil in Hin. }
  assert (w ∈ int_modes l) as Hin.
  { unfold int_modes. rewrite sorted_Permutation.
    apply list_elem_of_fmap. exists (w, j). split; [done|].
    apply list_elem_of_In, filter_In. split; [by apply list_elem_of_In|].
    by apply Nat.eqb_eq. }
  rewrite Hnil in Hin. by apply elem_of_nil in Hin.
Qed.

Lemma int_modes_sorted l : StronglySorted Z.lt (int_modes l).
Proof.
  apply StronglySorted_le_lt.
  - apply StronglySorted_merge_sort; apply _.
  - unfold int_modes. rewrite sorted_Permutation.
    apply NoDup_keys_filter, Counter_ok.
Qed.

(** What [calculate_statistics] returns on a non-empty list of exact ints:
    the six entries, with floats that represent the least element [mn], the
    greatest element [mx], a median whose double [r] lies between [2 * mn]
    and [2 * mx], and the most frequent values in ascending order. *)
Lemma calculate_statistics_spec l :
  l <> [] -> Forall exact_int l ->
  exists mn mx r fmin fmax fmean fmed fmodes,
    calculate_statistics l =
      Ok [("count", SInt (Z.of_nat (length l)));
          ("minimum", SFloat fmin);
          ("maximum", SFloat fmax);
          ("mean", SFloat fmean);
          ("median", SFloat fmed);
          ("modes", SFloats fmodes)] /\
    (mn ∈ l /\ forall x, x ∈ l -> mn <= x) /\
    (mx ∈ l /\ forall x, x ∈ l -> x <= mx) /\
    represents fmin (mn * 2 ^ 1074) /\
    represents fmax (mx * 2 ^ 1074) /\
    (represents fmed (r * 2 ^ 1073) /\ 2 * mn <= r <= 2 * mx) /\
    Forall2 (fun x z => represents x (z * 2 ^ 1074)) fmodes (int_modes l).
Proof.
  intros Hne Hl. pose proof Hl as Hl'. rewrite Forall_forall in Hl'.
  destruct l as [|y ys]; [done|].
  destruct (list_min_spec ys y) as [Hmn_in Hmn].
  destruct (list_max_spec ys y) as [Hmx_in Hmx].
  destruct (statistics_mean_ok (y :: ys) Hne Hl) as (mean & fmean & Hmean & Hfmean).
  destruct (statistics_median_ok (y :: ys) (list_min y ys) (list_max y ys)
              Hne Hl) as (median & fmed & r & Hmedian & Hfmed & Hrep & Hr).
  { intros x Hx. split; [by apply Hmn|by apply Hmx]. }
  destruct (of_int_represents _ (Hl' _ Hmn_in)) as (fmin & Hfmin & Hrmin).
  destruct (of_int_represents _ (Hl' _ Hmx_in)) as (fmax & Hfmax & Hrmax).
  destruct (floats_of_exact (int_modes (y :: ys))) as (fmodes & Hfmodes & Hrmodes).
  { apply Forall_forall. intros z Hz. apply Hl'.
    by apply int_modes_elem in Hz as [Hz _]. }
  exists (list_min y ys), (list_max y ys), r, fmin, fmax, fmean, fmed, fmodes.
  split; [|done].
  unfold calculate_statistics. fold (int_modes (y :: ys)).
  rewrite Hmean, Hmedian. cbn [mbind result_bind].
  rewrite Hfmin, Hfmax, Hfmean, Hfmed, Hfmodes. done.
Qed.

(** C7 (amended). For every non-empty list of ints of absolute value at most
    [2^53], [calculate_statistics] returns a snapshot whose [minimum] is at
    most every element, whose [maximum] is at least every element, and whose
    [median] lies between the two. *)
Theorem C7_minimum_median_maximum numbers_y :
  numbers_y <> [] -> Forall exact_int numbers_y ->
  exists cs fmin fmax fmed,
    calculate_statistics numbers_y = Ok cs /\
    getitem cs "minimum" = Ok (SFloat fmin) /\
    getitem cs "maximum" = Ok (SFloat fmax) /\
    getitem cs "median" = Ok (SFloat fmed) /\
    (forall x, x ∈ numbers_y ->
       Float.leb_int fmin x = true /\ Float.int_leb x fmax = true) /\
    Float.leb fmin fmed = true /\
    Float.leb fmed fmax = true.
Proof.
  intros Hne Hl.
  destruct (calculate_statistics_spec numbers_y Hne Hl)
    as (mn & mx & r & fmin & fmax & fmean & fmed & fmodes & Hcs &
        [_ Hmn] & [_ Hmx] & Hrmin & Hrmax & [Hrmed Hr] & _).
  eexists _, fmin, fmax, fmed. split; [exact Hcs|].
  do 3 (split; [done|]).
  assert (2 ^ 1074 = 2 * 2 ^ 1073) as Hpow by done.
  assert (0 < 2 ^ 1073) as Hpos by done.
  repeat split.
  - eapply leb_int_represents; [done|by apply Hmn].
  - eapply int_leb_represents; [done|by apply Hmx].
  - eapply leb_represents; [done..|].
    rewrite Hpow. generalize dependent (2 ^ 1073). intros. nia.
  - eapply leb_represents; [done..|].
    rewrite Hpow. generalize dependent (2 ^ 1073). intros. nia.
Qed.

(** Floats that represent ints are ordered, and equal to an int, as the
    ints are. *)
Lemma represents_all_lt x m xs ms :
  represents x (m * 2 ^ 1074) ->
  Forall2 (fun x z => represents x (z * 2 ^ 1074)) xs ms ->
  Forall (Z.lt m) ms ->
  Forall (fun x' => Float.ltb x x' = true) xs.
Proof.
  intros Hx Hxs. induction Hxs as [|x' m' xs ms Hx' Hxs IH]; intros Hm.
  - constructor.
  - apply Forall_cons in Hm as [Hm' Hm]. constructor; [|by apply IH].
    eapply ltb_represents; [done..|].
    apply Z.mul_lt_mono_pos_r; [apply scale_pos|done].
Qed.

Lemma represents_sorted xs ms :
  Forall2 (fun x z => represents x (z * 2 ^ 1074)) xs ms ->
  StronglySorted Z.lt ms ->
  StronglySorted (fun x y => Float.ltb x y = true) xs.
Proof.
  induction 1 as [|x m xs ms Hx Hxs IH]; intros Hsorted.
  - constructor.
  - apply StronglySorted_inv in Hsorted as [Hms Hm].
    constructor; [by apply IH|]. by eapply represents_all_lt.
Qed.

Lemma represents_elem xs ms z :
  Forall2 (fun x z => represents x (z * 2 ^ 1074)) xs ms ->
  (exists x, x ∈ xs /\ Float.eqb_int x z = true) <-> z ∈ ms.
Proof.
  induction 1 as [|x m xs ms Hx Hxs IH].
  - split.
    + intros (x & Hx & _). by apply elem_of_nil in Hx.
    + intros Hz. by apply elem_of_nil in Hz.
  - rewrite elem_of_cons, <- IH. split.
    + intros (x' & [->|Hx']%elem_of_cons & Heq).
      * left. rewrite (eqb_int_represents _ _ _ Hx) in Heq.
        symmetry. by apply Z.eqb_eq.
      * right. by exists x'.
    + intros [->|(x' & Hx' & Heq)].
      * exists x. split; [apply list_elem_of_here|].
        rewrite (eqb_int_represents _ _ _ Hx). apply Z.eqb_refl.
      * exists x'. split; [by apply list_elem_of_further|done].
Qed.

Lemma represents_member xs ms x :
  Forall2 (fun x z => represents x (z * 2 ^ 1074)) xs ms ->
  x ∈ xs -> exists z, z ∈ ms /\ Float.eqb_int x z = true.
Proof.
  induction 1 as [|x' m xs ms Hx Hxs IH].
  - intros Hin. by apply elem_of_nil in Hin.
  - intros [->|Hin]%elem_of_cons.
    + exists m. split; [apply list_elem_of_here|].
      rewrite (eqb_int_represents _ _ _ Hx). apply Z.eqb_refl.
    + destruct (IH Hin) as (z & Hz & Heq).
      exists z. split; [by apply list_elem_of_further|done].
Qed.

(** C8 (amended). For every non-empty list of ints of absolute value at most
    [2^53], the [modes] of the snapshot is a non-empty list of floats in
    strictly ascending order; each of them equals an int that occurs in the
    input and that no value occurs more often than, and an int equals one of
    them exactly when it occurs in the input and no value occurs more
    often. *)
Theorem C8_modes numbers_y :
  numbers_y <> [] -> Forall exact_int numbers_y ->
  exists cs modes,
    calculate_statistics numbers_y = Ok cs /\
    getitem cs "modes" = Ok (SFloats modes) /\
    modes <> [] /\
    StronglySorted (fun x y => Float.ltb x y = true) modes /\
    (forall x, x ∈ modes ->
       exists z, Float.eqb_int x z = true /\ z ∈ numbers_y /\
         forall y, (frequency y numbers_y <= frequency z numbers_y)%nat) /\
    (forall z,
       (exists x, x ∈ modes /\ Float.eqb_int x z = true) <->
       (z ∈ numbers_y /\
        forall y, (frequency y numbers_y <= frequency z numbers_y)%nat)).
Proof.
  intros Hne Hl.
  destruct (calculate_statistics_spec numbers_y Hne Hl)
    as (mn & mx & r & fmin & fmax & fmean & fmed & fmodes & Hcs &
        [Hmn_in Hmn] & _ & _ & _ & _ & Hmodes).
  eexists _, fmodes. split; [exact Hcs|]. split; [done|].
  pose proof (int_modes_sorted numbers_y) as Hsorted.
  pose proof (int_modes_elem numbers_y) as Helem.
  pose proof (int_modes_nonempty numbers_y Hne) as Hnil.
  clear Hcs. split; [|split; [|split]].
  - intros ->. by apply Forall2_nil_inv_l in Hmodes.
  - by eapply represents_sorted.
  - intros x Hx.
    destruct (represents_member _ _ _ Hmodes Hx) as (z & Hz & Heq).
    exists z. split; [done|]. by apply Helem.
  - intros z. rewrite <- (Helem z Hne). by apply represents_elem.
Qed.

(** C9 (amended). For the empty input, [calculate_statistics] returns the
    count 0 and [None] for [minimum], [maximum], [mean], [median] and
    [mode]; that snapshot has no [modes] entry at all. *)
Theorem C9_empty_input :
  exists cs,
    calculate_statistics [] = Ok cs /\
    getitem cs "count" = Ok (SInt 0) /\
    Forall (fun name => getitem cs name = Ok SNone)
      ["minimum"; "maximum"; "mean"; "median"; "mode"] /\
    getitem cs "modes" = Raise KeyError.
Proof. eexists. split; [reflexivity|]. repeat constructor. Qed.

End Statistics.

(** * Properties *)

Section Properties.

Variable float_of_str : string -> option float.

#[local] Abbreviation validate := (validate float_of_str).
#[local] Abbreviation step2 := (step2_submit_statistics float_of_str).
#[local] Abbreviation six_checks := (six_checks float_of_str).

(** ** The validator *)

Ltac check_tac :=
  repeat (case_match; simpl in *; simplify_eq);
  rewrite ?andb_true_r, ?andb_false_r, ?app_nil_r, ?map_app;
  try done.

Lemma check_count_does us cs st :
  check_does "count" (count_passes us cs) st (check_count us cs st).
Proof.
  unfold check_does, check_count, count_passes, mbind, result_bind.
  check_tac.
Qed.

Lemma check_close_does rel_tol abs_tol name u cs st f :
  (forall c, field (f c) = name) ->
  check_does name (close_passes float_of_str rel_tol abs_tol u cs name) st
    (x ← float_of_json float_of_str u;
     c ← getitem cs name;
     y ← float_of_stat c;
     if negb (Float.isclose x y rel_tol abs_tol)
     then Ok (false, st.2 ++ [f c])
     else Ok st).
Proof.
  intros Hf.
  unfold check_does, close_passes, mbind, result_bind.
  check_tac; simpl; rewrite ?Hf; done.
Qed.

Lemma check_minimum_does us cs st :
  check_does "minimum"
    (close_passes float_of_str Float.tol_1e_9 Float.zero (u_minimum us) cs "minimum")
    st (check_minimum float_of_str us cs st).
Proof.
  apply (check_close_does _ _ _ _ _ _
           (fun c => Mismatch "minimum" c (u_minimum us))); done.
Qed.

Lemma check_maximum_does us cs st :
  check_does "maximum"
    (close_passes float_of_str Float.tol_1e_9 Float.zero (u_maximum us) cs "maximum")
    st (check_maximum float_of_str us cs st).
Proof.
  apply (check_close_does _ _ _ _ _ _
           (fun c => Mismatch "maximum" c (u_maximum us))); done.
Qed.

Lemma check_median_does us cs st :
  check_does "median"
    (close_passes float_of_str Float.tol_1e_9 Float.tol_1e_9 (u_median us) cs "median")
    st (check_median float_of_str us cs st).
Proof.
  apply (check_close_does _ _ _ _ _ _
           (fun c => Mismatch "median" c (u_median us))); done.
Qed.

(** The mean check also formats both values with [:.2f] when it fails, which
    can raise; it then still did not pass. *)
Lemma check_mean_does us cs st :
  check_does "mean"
    (close_passes float_of_str Float.tol_1e_9 Float.tol_1e_9 (u_mean us) cs "mean")
    st (check_mean float_of_str us cs st).
Proof.
  unfold check_does, check_mean, close_passes, mbind, result_bind.
  check_tac; by apply negb_true_iff.
Qed.

Lemma check_mode_does us cs st :
  check_does "mode" (mode_passes float_of_str us cs) st
    (check_mode float_of_str us cs st).
Proof.
  unfold check_does, check_mode, mode_passes, float_in_stat, mbind, result_bind.
  check_tac.
Qed.

(** Chaining a check after a run of checks. *)
Lemma check_does_bind name p r k (v0 : bool) (names : list string) :
  match r with
  | Ok st => st.1 = v0 /\ map field st.2 = names
  | Raise _ => v0 = false
  end ->
  (forall st, check_does name p st (k st)) ->
  match r ≫= k with
  | Ok st =>
    st.1 = v0 && p /\ map field st.2 = names ++ (if p then [] else [name])
  | Raise _ => v0 && p = false
  end.
Proof.
  intros Hr Hk. destruct r as [st|e]; simpl.
  - destruct Hr as [<- <-]. specialize (Hk st). unfold check_does in Hk.
    destruct (k st); [done|]. rewrite Hk. apply andb_false_r.
  - by rewrite Hr.
Qed.

(** The six checks run one after the other on the result of the previous
    one. *)
Lemma validate_chain us cs :
  validate us cs =
  ((((check_count us cs (true, []) ≫= check_minimum float_of_str us cs)
     ≫= check_maximum float_of_str us cs)
    ≫= check_mean float_of_str us cs)
   ≫= check_median float_of_str us cs)
  ≫= check_mode float_of_str us cs.
Proof.
  unfold validate.
  repeat match goal with
  | |- context [mbind _ ?r] =>
    is_var r; destruct r; simpl; try reflexivity
  | |- context [mbind _ (?f ?a ?b ?c)] =>
    destruct (f a b c); simpl; try reflexivity
  end.
Qed.

(** [validate] returns the conjunction of the six checks and the names of
    all those that fail, in order; it raises only when some check does not
    pass. *)
Lemma validate_spec us cs :
  match validate us cs with
  | Ok (v, errors) =>
    v = forallb snd (six_checks us cs) /\
    map field errors = failed_names (six_checks us cs)
  | Raise _ => forallb snd (six_checks us cs) = false
  end.
Proof.
  pose proof (check_count_does us cs (true, [])) as H0.
  unfold check_does in H0. simpl in H0.
  set (r0 := check_count us cs (true, [])) in *.
  assert (H1 := check_does_bind "minimum" _ r0 _ (count_passes us cs)
                  (if count_passes us cs then [] else ["count"])
                  ltac:(destruct r0; [done|done])
                  (check_minimum_does us cs)).
  assert (H2 := check_does_bind "maximum" _ _ _ _ _ H1 (check_maximum_does us cs)).
  assert (H3 := check_does_bind "mean" _ _ _ _ _ H2 (check_mean_does us cs)).
  assert (H4 := check_does_bind "median" _ _ _ _ _ H3 (check_median_does us cs)).
  assert (H5 := check_does_bind "mode" _ _ _ _ _ H4 (check_mode_does us cs)).
  clear H0 H1 H2 H3 H4. rewrite validate_chain.
  unfold failed_names, six_checks. simpl.
  destruct (_ ≫= _) as [[v errors]|e]; simpl in *.
  - destruct H5 as [-> ->]. split.
    + by rewrite andb_true_r, !andb_assoc.
    + repeat match goal with
      | |- context [count_passes ?a ?b] => destruct (count_passes a b)
      | |- context [close_passes ?a ?b ?c ?d ?e ?f] =>
        destruct (close_passes a b c d e f)
      | |- context [mode_passes ?a ?b ?c] => destruct (mode_passes a b c)
      end; reflexivity.
  - by rewrite andb_true_r, !andb_assoc.
Qed.

(** The format spec [:.2f] applies to every number that [float] converts. *)
Lemma format_2f_converted u x :
  (forall str, u <> JStr str) ->
  float_of_json float_of_str u = Ok x -> format_2f u = Ok ().
Proof.
  intros Hu. destruct u as [| | | |str| |]; simpl; try done.
  - by intros ->.
  - by destruct (Hu str).
Qed.

(** Against a well-formed ground truth, a submission whose mean is not a
    string makes the validator raise exactly when one of its five
    conversions raises, with the exception of the first that does. *)
Lemma validate_conversions us ci :
  ground_truth_ok ci ->
  (forall str, u_mean us <> JStr str) ->
  match conversions float_of_str us with
  | Ok _ => exists v errors, validate us (correct_stats ci) = Ok (v, errors)
  | Raise e => validate us (correct_stats ci) = Raise e
  end.
Proof.
  intros (_ & _ & fmin & fmax & fmean & fmed & fmodes & Hcs & _) Hmean.
  rewrite Hcs. clear Hcs.
  generalize (Z.of_nat (length (numbers_y ci))). intros n.
  pose proof (format_2f_converted (u_mean us)) as Hfmt.
  unfold conversions, float_fields, validate, check_count, check_minimum,
    check_maximum, check_mean, check_median, check_mode.
  repeat match goal with
  | |- context [getitem ?d ?name] =>
    let c := eval vm_compute in (getitem d name) in
    change (getitem d name) with c
  end.
  cbv beta iota delta [mapM mbind mret result_bind result_ret float_of_stat
                         float_in_stat format_2f_stat].
  destruct (float_of_json float_of_str (u_minimum us)),
    (float_of_json float_of_str (u_maximum us)),
    (float_of_json float_of_str (u_mean us)),
    (float_of_json float_of_str (u_median us)),
    (float_of_json float_of_str (u_mode us));
    try rewrite (Hfmt _ Hmean eq_refl);
    repeat (case_match; simplify_eq); eauto.
Qed.

(** So the validator returns whenever [float] converts each of the five
    submitted values and the mean is not a string. *)
Lemma validate_returns us ci :
  ground_truth_ok ci ->
  (forall str, u_mean us <> JStr str) ->
  Forall (fun u => exists x, float_of_json float_of_str u = Ok x)
    (float_fields us) ->
  exists v errors, validate us (correct_stats ci) = Ok (v, errors).
Proof.
  intros Hok Hmean Hconv.
  pose proof (validate_conversions us ci Hok Hmean) as Hv.
  unfold conversions in Hv.
  destruct (mapM _ _) as [xs|e] eqn:Hm; [done|]. exfalso. clear Hv.
  unfold float_fields in *.
  repeat match goal with
  | H : Forall _ (_ :: _) |- _ => apply Forall_cons in H as [[? ?] H]
  end.
  simpl in Hm.
  repeat match goal with
  | H : float_of_json _ _ = Ok _ |- _ => rewrite H in Hm; clear H
  end.
  done.
Qed.

(** On two ints, the count check is equality. *)
Lemma count_passes_int us cs m n :
  u_count us = JInt m -> getitem cs "count" = Ok (SInt n) ->
  count_passes us cs = (m =? n).
Proof. intros Hu Hc. unfold count_passes. by rewrite Hc, Hu. Qed.

(** The handler, on a submission that reaches the comparison step. *)
Lemma step2_comparison req s data us k ci :
  reaches_comparison req s data us k ci ->
  step2 req s =
    match validate us (correct_stats ci) with
    | Raise e => (Crashed e, <[k := attempted ci]> s)
    | Ok (true, _) => (success, <[k := succeeded (attempted ci) data]> s)
    | Ok (false, _) => (failure, <[k := attempted ci]> s)
    end.
Proof.
  intros ((Hp & Hk & Hall) & Hs & Hlt).
  unfold step2_submit_statistics. rewrite Hp. simpl.
  assert (String.eqb k "" = false) as -> by by apply String.eqb_neq.
  rewrite Hall, Hs. simpl.
  assert ((MAX_STEP2_ATTEMPTS <=? step2_attempts ci) = false) as ->
    by by apply Z.leb_gt.
  destruct (validate us (correct_stats ci)) as [[[] ?]|?]; try done.
  by rewrite insert_insert_eq.
Qed.

(** ** The handler, case by case *)

Lemma parse_request_fields req data key us :
  parse_request req = Fields data key us ->
  req = Body data /\ truthy data = true.
Proof.
  unfold parse_request. destruct req as [|data']; [done|].
  destruct (truthy data') eqn:Ht; simpl; [|done].
  destruct data'; simpl; try done.
  by intros [= <- _ _].
Qed.

(** A submission leaves the store alone, or it reaches the comparison step
    and counts one attempt, recording its payload when it succeeds. *)
Lemma step2_store req s :
  (step2 req s).2 = s \/
  exists data us k ci,
    reaches_comparison req s data us k ci /\ truthy data = true /\
    ((step2 req s).2 = <[k := attempted ci]> s \/
     (step2 req s).2 = <[k := succeeded (attempted ci) data]> s).
Proof.
  destruct (parse_request req) as [r|data key us] eqn:Hp.
  { left. unfold step2_submit_statistics. by rewrite Hp. }
  destruct (parse_request_fields _ _ _ _ Hp) as [_ Hdata].
  destruct (negb (truthy key) || negb (all_present us)) eqn:Hc.
  { left. unfold step2_submit_statistics. by rewrite Hp, Hc. }
  apply orb_false_elim in Hc as [Hkey Hall].
  apply negb_false_iff in Hkey, Hall.
  destruct key as [| | | |k| |];
    try (left; unfold step2_submit_statistics; rewrite Hp; simpl in *;
         rewrite ?Hkey, ?Hall; done).
  destruct (s !! k) as [ci|] eqn:Hs.
  2:{ left. unfold step2_submit_statistics. rewrite Hp. simpl in *.
      by rewrite Hkey, Hall, Hs. }
  destruct (MAX_STEP2_ATTEMPTS <=? step2_attempts ci) eqn:Hmax.
  { left. unfold step2_submit_statistics. rewrite Hp. simpl in *.
    rewrite Hkey, Hall, Hs. simpl. rewrite Hmax.
    by destruct (truthy (last_correct_submission_data ci)). }
  right. exists data, us, k, ci.
  assert (reaches_comparison req s data us k ci) as Hreach.
  { repeat split; try done.
    - simpl in Hkey. apply negb_true_iff in Hkey. by apply String.eqb_neq.
    - by apply Z.leb_gt. }
  split; [done|]. split; [done|].
  rewrite (step2_comparison _ _ _ _ _ _ Hreach).
  destruct (validate us (correct_stats ci)) as [[[] ?]|?]; simpl; auto.
Qed.

(** A well-formed submission to a challenge that has used up its attempts. *)
Lemma step2_at_limit req s data us k ci :
  well_formed_for k req data us ->
  s !! k = Some ci ->
  MAX_STEP2_ATTEMPTS <= step2_attempts ci ->
  step2 req s =
    (if truthy (last_correct_submission_data ci)
     then limit_reached_success else attempts_exhausted, s).
Proof.
  intros (Hp & Hk & Hall) Hs Hmax.
  unfold step2_submit_statistics. rewrite Hp. simpl.
  assert (String.eqb k "" = false) as -> by by apply String.eqb_neq.
  rewrite Hall, Hs. simpl.
  assert ((MAX_STEP2_ATTEMPTS <=? step2_attempts ci) = true) as ->
    by by apply Z.leb_le.
  by destruct (truthy (last_correct_submission_data ci)).
Qed.

(** ** Invariants of the store *)

(** A property of entries holds in every reachable store when it holds of a
    freshly issued challenge and survives an attempt and a success. *)
Lemma reachable_entries (P : challenge -> Prop) :
  (forall email num_elements randint cs,
     randomness_ok num_elements randint ->
     calculate_statistics (map randint (seq 0 num_elements)) = Ok cs ->
     P (Challenge email (map randint (seq 0 num_elements)) cs 0 JNull)) ->
  (forall ci, P ci -> P (attempted ci)) ->
  (forall ci data, P ci -> truthy data = true -> P (succeeded ci data)) ->
  forall s, reachable float_of_str s ->
  forall k ci, s !! k = Some ci -> P ci.
Proof.
  intros Hnew Hatt Hsucc s Hs.
  induction Hs as [|s email key n randint Hs IH Hrand|s req Hs IH];
    intros k ci Hk.
  - by rewrite lookup_empty in Hk.
  - unfold step1_get_challenge in Hk.
    destruct email as [[|a email]|]; simpl in Hk; try by eapply IH.
    destruct (calculate_statistics (map randint (seq 0 n))) as [cs|e] eqn:Hcs;
      simpl in Hk; [|by eapply IH].
    destruct (decide (key = k)) as [->|Hne].
    + rewrite lookup_insert_eq in Hk. injection Hk as <-. by apply Hnew.
    + rewrite lookup_insert_ne in Hk by done. by eapply IH.
  - destruct (step2_store req s) as [Heq|(data & us & k' & ci' & Hr & Ht & Heq)].
    { rewrite Heq in Hk. by eapply IH. }
    destruct Hr as (_ & Hs' & _).
    destruct (decide (k' = k)) as [->|Hne].
    + destruct Heq as [Heq|Heq]; rewrite Heq, lookup_insert_eq in Hk;
        injection Hk as <-; eauto.
    + destruct Heq as [Heq|Heq]; rewrite Heq, lookup_insert_ne in Hk by done;
        by eapply IH.
Qed.



(** C5 (amended). A submission whose body is a non-empty JSON object in which
    [secret_key] or one of the six statistics is absent or null gets the 400
    missing-fields response, and the store, and so [step2_attempts], is
    unchanged. *)
Theorem C5_missing_fields d s :
  d <> [] ->
  (exists name, name ∈ "secret_key" :: stat_names /\
                (assoc name d = None \/ assoc name d = Some JNull)) ->
  step2 (Body (JDict d)) s = (missing_fields, s).
Proof.
  intros Hd (name & Hin & Hname).
  assert (default JNull (assoc name d) = JNull) as Hnull
    by (by destruct Hname as [-> | ->]).
  unfold step2_submit_statistics, parse_request.
  assert (truthy (JDict d) = true) as -> by by destruct d.
  simpl.
  assert (negb (truthy (default JNull (assoc "secret_key" d)))
          || negb (all_present
                     (UserStats (default JNull (assoc "count" d))
                        (default JNull (assoc "minimum" d))
                        (default JNull (assoc "maximum" d))
                        (default JNull (assoc "mean" d))
                        (default JNull (assoc "median" d))
                        (default JNull (assoc "mode" d)))) = true) as ->;
    [|done].
  unfold all_present. simpl.
  unfold stat_names in Hin.
  repeat (apply elem_of_cons in Hin as [-> | Hin];
          [rewrite Hnull; simpl; rewrite ?andb_false_r, ?orb_true_r; done|]).
  by apply elem_of_nil in Hin.
Qed.

(** The response to an issuance is made of the secret key and the dataset
    alone. *)
Lemma step1_body email key num_elements randint s body status :
  (step1_get_challenge email key num_elements randint s).1
    = Response body status ->
  status = 200 ->
  body = JDict [("secret_key", JStr key);
                ("numbers",
                 JList (map JInt (map randint (seq 0 num_elements))))].
Proof.
  unfold step1_get_challenge.
  destruct email as [[|a email]|]; simpl; try by intros [= <- <-].
  destruct (calculate_statistics _); simpl; [|done].
  by intros [= <- <-].
Qed.

(** A submission that is not correct is answered with the failure response
    when the validator returns, and ends with its exception otherwise. *)
Lemma step2_incorrect req s data us k ci :
  reaches_comparison req s data us k ci ->
  forallb snd (six_checks us (correct_stats ci)) = false ->
  (step2 req s).2 = <[k := attempted ci]> s /\
  match validate us (correct_stats ci) with
  | Ok _ => (step2 req s).1 = failure
  | Raise e => (step2 req s).1 = Crashed e
  end.
Proof.
  intros Hreach Hbad. rewrite (step2_comparison _ _ _ _ _ _ Hreach).
  pose proof (validate_spec us (correct_stats ci)) as Hv.
  destruct (validate us (correct_stats ci)) as [[v errors]|e]; [|done].
  destruct Hv as [-> _]. by rewrite Hbad.
Qed.

(** When the mean is not a string, the outcome of a submission that is not
    correct is the same against every well-formed ground truth: the failure
    response, or the exception of the first conversion that raises. *)
Lemma incorrect_outcome_independent us
    req1 s1 data1 k1 ci1 req2 s2 data2 k2 ci2 :
  (forall str, u_mean us <> JStr str) ->
  reaches_comparison req1 s1 data1 us k1 ci1 ->
  reaches_comparison req2 s2 data2 us k2 ci2 ->
  ground_truth_ok ci1 -> ground_truth_ok ci2 ->
  forallb snd (six_checks us (correct_stats ci1)) = false ->
  forallb snd (six_checks us (correct_stats ci2)) = false ->
  (step2 req1 s1).1 = (step2 req2 s2).1.
Proof.
  intros Hmean Hr1 Hr2 Hok1 Hok2 Hbad1 Hbad2.
  destruct (step2_incorrect _ _ _ _ _ _ Hr1 Hbad1) as [_ H1].
  destruct (step2_incorrect _ _ _ _ _ _ Hr2 Hbad2) as [_ H2].
  pose proof (validate_conversions us ci1 Hok1 Hmean) as Hv1.
  pose proof (validate_conversions us ci2 Hok2 Hmean) as Hv2.
  destruct (conversions float_of_str us) as [xs|e].
  - destruct Hv1 as (v1 & errors1 & Hv1), Hv2 as (v2 & errors2 & Hv2).
    rewrite Hv1 in H1. rewrite Hv2 in H2. congruence.
  - rewrite Hv1 in H1. rewrite Hv2 in H2. congruence.
Qed.

(** ** Issued challenges *)

Lemma dataset_ok num_elements randint :
  randomness_ok num_elements randint ->
  let numbers_y := map randint (seq 0 num_elements) in
  numbers_y <> [] /\ Forall exact_int numbers_y /\
  (5 <= length numbers_y <= 15)%nat /\
  Forall (fun x => 1 <= x <= 100) numbers_y.
Proof.
  intros [Hn Hr] numbers_y.
  assert (length numbers_y = num_elements) as Hlen
    by (subst numbers_y; by rewrite length_map, length_seq).
  assert (Forall (fun x => 1 <= x <= 100) numbers_y) as Hall.
  { apply Forall_forall. intros x Hx. subst numbers_y.
    apply list_elem_of_fmap in Hx as (i & -> & _). apply Hr. }
  repeat split; try lia; try done.
  - intros Hnil. rewrite Hnil in Hlen. simpl in Hlen. lia.
  - eapply Forall_impl; [exact Hall|]. unfold exact_int. simpl.
    intros x Hx. change (2 ^ 53) with 9007199254740992. lia.
Qed.

(** With an email, issuing a challenge stores it under the secret key with
    no attempt made. *)
Lemma step1_issues email key num_elements randint s :
  email <> "" -> randomness_ok num_elements randint ->
  exists cs,
    calculate_statistics (map randint (seq 0 num_elements)) = Ok cs /\
    (step1_get_challenge (Some email) key num_elements randint s).2
    = <[key := Challenge email (map randint (seq 0 num_elements)) cs 0 JNull]> s.
Proof.
  intros Hemail Hrand.
  destruct (dataset_ok _ _ Hrand) as (Hne & Hexact & _).
  destruct (calculate_statistics_spec _ Hne Hexact)
    as (mn & mx & r & fmin & fmax & fmean & fmed & fmodes & Hcs & _).
  eexists. split; [exact Hcs|].
  unfold step1_get_challenge. destruct email as [|a email]; [done|].
  by rewrite Hcs.
Qed.

(** One more attempt is counted by each well-formed submission to a
    challenge that has attempts left. *)
Lemma step2_counts req s data us k ci :
  well_formed_for k req data us ->
  s !! k = Some ci ->
  step2_attempts ci < MAX_STEP2_ATTEMPTS ->
  exists ci', (step2 req s).2 !! k = Some ci' /\
              step2_attempts ci' = step2_attempts ci + 1.
Proof.
  intros Hwf Hs Hlt.
  rewrite (step2_comparison req s data us k ci) by done.
  destruct (validate us (correct_stats ci)) as [[[] ?]|?]; simpl;
    rewrite lookup_insert_eq; eexists; split; done.
Qed.

Lemma run_counts reqs k s ci :
  Forall (fun req => exists data us, well_formed_for k req data us) reqs ->
  s !! k = Some ci ->
  step2_attempts ci + Z.of_nat (length reqs) <= MAX_STEP2_ATTEMPTS ->
  exists ci', run float_of_str reqs s !! k = Some ci' /\
              step2_attempts ci' = step2_attempts ci + Z.of_nat (length reqs).
Proof.
  intros Hreqs. revert s ci.
  induction Hreqs as [|req reqs (data & us & Hwf) Hreqs IH]; intros s ci Hs Hle.
  - exists ci. simpl. split; [done|lia].
  - rewrite length_cons, Nat2Z.inj_succ in Hle.
    destruct (step2_counts req s data us k ci Hwf Hs ltac:(lia))
      as (ci1 & Hs1 & Hatt1).
    destruct (IH _ ci1 Hs1 ltac:(lia)) as (ci' & Hs' & Hatt').
    exists ci'. split; [exact Hs'|].
    rewrite length_cons, Nat2Z.inj_succ. lia.
Qed.

(** C4. A challenge is issued with [step2_attempts = 0], and after [k]
    well-formed submissions against its key, for [k < MAX_STEP2_ATTEMPTS],
    its [step2_attempts] is [k], whatever the submissions hold. *)
Theorem C4_attempt_counting email key num_elements randint s reqs :
  email <> "" ->
  randomness_ok num_elements randint ->
  Forall (fun req => exists data us, well_formed_for key req data us) reqs ->
  Z.of_nat (length reqs) < MAX_STEP2_ATTEMPTS ->
  let issued :=
    (step1_get_challenge (Some email) key num_elements randint s).2 in
  step2_attempts <$> issued !! key = Some 0 /\
  step2_attempts <$> run float_of_str reqs issued !! key
  = Some (Z.of_nat (length reqs)).
Proof.
  intros Hemail Hrand Hreqs Hlt issued.
  destruct (step1_issues email key num_elements randint s Hemail Hrand)
    as (cs & _ & Hissued).
  fold issued in Hissued.
  assert (issued !! key
          = Some (Challenge email (map randint (seq 0 num_elements)) cs 0 JNull))
    as Hkey by (rewrite Hissued; apply lookup_insert_eq).
  split; [by rewrite Hkey|].
  destruct (run_counts reqs key issued _ Hreqs Hkey) as (ci' & -> & Hatt).
  { simpl. lia. }
  simpl in *. by rewrite Hatt.
Qed.

(** ** The ground truth of a stored challenge *)

Lemma reachable_ground_truth s k ci :
  reachable float_of_str s -> s !! k = Some ci -> ground_truth_ok ci.
Proof.
  intros Hs. revert k ci.
  apply (reachable_entries ground_truth_ok); [|done|done|done].
  intros email n randint cs Hrand Hcs.
  destruct (dataset_ok _ _ Hrand) as (Hne & Hexact & Hlen & Hall).
  destruct (calculate_statistics_spec _ Hne Hexact)
    as (mn & mx & r & fmin & fmax & fmean & fmed & fmodes & Hspec &
        _ & _ & _ & _ & _ & Hmodes).
  rewrite Hcs in Hspec. injection Hspec as ->.
  split; [exact Hlen|]. split; [exact Hall|].
  exists fmin, fmax, fmean, fmed, fmodes. split; [done|].
  intros ->. apply Forall2_nil_inv_l in Hmodes.
  by apply (int_modes_nonempty _ Hne).
Qed.


(** C2 (amended). Within the attempt budget, a correct submission A, then
    one B that is not correct, then a correct one C to the same challenge of
    a reachable store: A gets the success response and its data is recorded;
    B does not get the success response: it gets the failure response or
    ends with an exception, and it gets the failure response when [float]
    converts each of its five values and its mean is not a string;
    A's data stays recorded after B; C gets the success response and its
    data replaces A's. *)
Theorem C2_last_correct_wins reqA reqB reqC dataA dataB dataC usA usB usC
    s k ci :
  reachable float_of_str s ->
  s !! k = Some ci ->
  step2_attempts ci + 3 <= MAX_STEP2_ATTEMPTS ->
  well_formed_for k reqA dataA usA ->
  well_formed_for k reqB dataB usB ->
  well_formed_for k reqC dataC usC ->
  forallb snd (six_checks usA (correct_stats ci)) = true ->
  forallb snd (six_checks usB (correct_stats ci)) = false ->
  forallb snd (six_checks usC (correct_stats ci)) = true ->
  let a := step2 reqA s in
  let b := step2 reqB a.2 in
  let c := step2 reqC b.2 in
  a.1 = success /\
  last_correct_submission_data <$> a.2 !! k = Some dataA /\
  b.1 <> success /\
  (b.1 = failure \/ exists e, b.1 = Crashed e) /\
  ((forall str, u_mean usB <> JStr str) ->
   Forall (fun u => exists x, float_of_json float_of_str u = Ok x)
     (float_fields usB) ->
   b.1 = failure) /\
  last_correct_submission_data <$> b.2 !! k = Some dataA /\
  c.1 = success /\
  last_correct_submission_data <$> c.2 !! k = Some dataC.
Proof.
  intros Hreach Hs Hbudget HA HB HC HokA HbadB HokC a b c.
  pose proof (reachable_ground_truth s k ci Hreach Hs) as Hok.
  assert (forall us, forallb snd (six_checks us (correct_stats ci)) = true ->
            exists errors, validate us (correct_stats ci) = Ok (true, errors))
    as Hvalid.
  { intros us Hgood. pose proof (validate_spec us (correct_stats ci)) as Hv.
    destruct (validate us (correct_stats ci)) as [[v errors]|e].
    - destruct Hv as [-> _]. rewrite Hgood. by eexists.
    - congruence. }
  destruct (Hvalid _ HokA) as [errorsA HvA].
  destruct (Hvalid _ HokC) as [errorsC HvC].
  assert (a = (success, <[k := succeeded (attempted ci) dataA]> s)) as Ha.
  { subst a. rewrite (step2_comparison _ s dataA usA k ci), HvA; [done|].
    repeat split; try apply HA; [done|lia]. }
  assert (reaches_comparison reqB a.2 dataB usB k
            (succeeded (attempted ci) dataA)) as HrB.
  { rewrite Ha. simpl.
    repeat split; try apply HB; [by rewrite lookup_insert_eq|simpl; lia]. }
  destruct (step2_incorrect _ _ _ _ _ _ HrB HbadB) as [Hb2 Hb1].
  fold b in Hb1, Hb2. simpl in Hb1.
  assert (c = (success,
               <[k := succeeded
                        (attempted (attempted (succeeded (attempted ci) dataA)))
                        dataC]> b.2))
    as Hc.
  { subst c. rewrite Hb2.
    rewrite (step2_comparison _ _ dataC usC k
               (attempted (succeeded (attempted ci) dataA))).
    - simpl. by rewrite HvC.
    - repeat split; try apply HC; [by rewrite lookup_insert_eq|simpl; lia]. }
  rewrite Hc, Hb2, Ha. simpl. rewrite !lookup_insert_eq. simpl.
  repeat split; try done.
  - destruct (validate usB (correct_stats ci)); by rewrite Hb1.
  - destruct (validate usB (correct_stats ci)) as [|e]; [by left|].
    right. by exists e.
  - intros Hmean Hconv.
    destruct (validate_returns usB ci Hok Hmean Hconv) as (v & errors & Hv).
    by rewrite Hv in Hb1.
Qed.

(** C10. Every challenge of a reachable store holds the statistics of a
    dataset of 5 to 15 ints between 1 and 100: a count, floats for minimum,
    maximum, mean and median, and a non-empty list of modes. So whenever the
    comparison of a submission raises, the exception comes from converting
    or formatting a submitted value, never from the ground truth. *)
Theorem C10_ground_truth_never_absent s k ci :
  reachable float_of_str s ->
  s !! k = Some ci ->
  ground_truth_ok ci /\
  (forall us e,
     validate us (correct_stats ci) = Raise e ->
     float_of_json float_of_str (u_minimum us) = Raise e \/
     float_of_json float_of_str (u_maximum us) = Raise e \/
     float_of_json float_of_str (u_mean us) = Raise e \/
     format_2f (u_mean us) = Raise e \/
     float_of_json float_of_str (u_median us) = Raise e \/
     float_of_json float_of_str (u_mode us) = Raise e).
Proof.
  intros Hreach Hs.
  pose proof (reachable_ground_truth s k ci Hreach Hs) as Hok.
  split; [exact Hok|].
  destruct Hok as (_ & _ & fmin & fmax & fmean & fmed & fmodes & Hcs & _).
  intros us e. rewrite Hcs.
  unfold validate, check_count, check_minimum, check_maximum, check_mean,
    check_median, check_mode.
  repeat match goal with
  | |- context [getitem ?d ?name] =>
    let c := eval vm_compute in (getitem d name) in
    change (getitem d name) with c
  end.
  cbv beta iota delta [mbind result_bind float_of_stat float_in_stat
                         format_2f_stat].
  intros Hraise.
  repeat (case_match; simplify_eq); auto 7.
Qed.

End Properties.

(** * Further properties of the statistics engine *)

Section MoreStatistics.

Import Float FloatFacts.

(** ** What the engine can raise *)

Lemma checked_cases x :
  (checked x = Ok x /\ is_finite x = true) \/ checked x = Raise OverflowError.
Proof. unfold checked. destruct (is_finite x); auto. Qed.

Lemma of_int_cases n :
  (exists x, of_int n = Ok x /\ is_finite x = true) \/
  of_int n = Raise OverflowError.
Proof.
  unfold of_int.
  destruct (checked_cases (binary_normalize prec emax n 0 false)) as [[-> ?]| ->];
    eauto.
Qed.

Lemma truediv_cases a b :
  b <> 0 ->
  (exists x, truediv a b = Ok x /\ is_finite x = true) \/
  truediv a b = Raise OverflowError.
Proof.
  intros Hb. unfold truediv.
  assert ((b =? 0) = false) as -> by by apply Z.eqb_neq.
  destruct a as [|p|p]; [by eauto| |];
    destruct (SFdiv_core_binary _ _ _ _ _ _) as [[mz ez] lz];
    match goal with
    | |- context [checked ?x] =>
      destruct (checked_cases x) as [[-> ?]| ->]; eauto
    end.
Qed.

Lemma float_of_num_cases v :
  (exists x, float_of_num v = Ok x) \/ float_of_num v = Raise OverflowError.
Proof.
  destruct v as [n|x]; simpl; [|by eauto].
  destruct (of_int_cases n) as [(x & -> & _)| ->]; eauto.
Qed.

Lemma floats_of_cases ms :
  (exists xs, floats_of ms = Ok xs /\ Forall (fun x => is_finite x = true) xs)
  \/ floats_of ms = Raise OverflowError.
Proof.
  induction ms as [|m ms IH]; simpl; [by left; exists []|].
  destruct (of_int_cases m) as [(x & -> & Hx)| ->]; [|by right].
  destruct IH as [(xs & -> & Hxs)| ->]; [|by right].
  left. exists (x :: xs). split; [done|]. by constructor.
Qed.

Lemma statistics_mean_cases l :
  l <> [] ->
  (exists v, statistics_mean l = Ok v) \/
  statistics_mean l = Raise OverflowError.
Proof.
  intros Hne. unfold statistics_mean.
  set (total := int_sum l). set (n := Z.of_nat (length l)).
  assert (1 <= n) as Hn by (subst n; destruct l; [done|simpl; lia]).
  assert ((n <? 1) = false) as -> by by apply Z.ltb_ge.
  destruct (Z.gcd_divide_r total n) as [b Hb].
  pose proof (Z.gcd_nonneg total n) as Hg.
  assert (0 < Z.gcd total n) as Hg'.
  { destruct (Z.eq_dec (Z.gcd total n) 0) as [Hg0|]; [|lia].
    apply Z.gcd_eq_0_r in Hg0. lia. }
  assert (n / Z.gcd total n = b) as Hdiv.
  { rewrite Hb at 1. apply Z.div_mul. lia. }
  rewrite Hdiv. destruct (b =? 1); [by eauto|].
  destruct (truediv_cases (total / Z.gcd total n) b ltac:(nia))
    as [(x & -> & _)| ->]; eauto.
Qed.

Lemma statistics_median_cases l :
  l <> [] ->
  (exists v, statistics_median l = Ok v) \/
  statistics_median l = Raise OverflowError.
Proof.
  intros Hne. unfold statistics_median. rewrite sorted_length.
  assert (Nat.eqb (length l) 0 = false) as ->
    by (destruct l; [done|apply Nat.eqb_neq; simpl; lia]).
  destruct (Nat.eqb (length l mod 2) 1); [by eauto|].
  match goal with
  | |- context [truediv ?a 2] =>
    destruct (truediv_cases a 2 ltac:(done)) as [(x & -> & _)| ->]; eauto
  end.
Qed.

(** Whatever the ints, [calculate_statistics] returns a snapshot whose count
    is the length of the input, or raises [OverflowError]: it raises nothing
    else. *)
Theorem calculate_statistics_raises_only_overflow numbers_y :
  (exists cs,
     calculate_statistics numbers_y = Ok cs /\
     getitem cs "count" = Ok (SInt (Z.of_nat (length numbers_y)))) \/
  calculate_statistics numbers_y = Raise OverflowError.
Proof.
  destruct numbers_y as [|y ys]; [left; by eexists|].
  unfold calculate_statistics.
  destruct (statistics_mean_cases (y :: ys) ltac:(done)) as [[mean ->]| ->];
    [|by right].
  destruct (statistics_median_cases (y :: ys) ltac:(done)) as [[median ->]| ->];
    [|by right].
  cbn [mbind result_bind].
  destruct (of_int_cases (list_min y ys)) as [(fmin & -> & _)| ->]; [|by right].
  destruct (of_int_cases (list_max y ys)) as [(fmax & -> & _)| ->]; [|by right].
  destruct (float_of_num_cases mean) as [[fmean ->]| ->]; [|by right].
  destruct (float_of_num_cases median) as [[fmed ->]| ->]; [|by right].
  match goal with
  | |- context [floats_of ?ms] =>
    destruct (floats_of_cases ms) as [(fmodes & -> & _)| ->]; [|by right]
  end.
  left. by eexists.
Qed.

Lemma of_int_finite n x : of_int n = Ok x -> is_finite x = true.
Proof.
  intros Hx. destruct (of_int_cases n) as [(x' & Hx' & Hfin)|Hr]; congruence.
Qed.

Lemma truediv_finite_result a b x : truediv a b = Ok x -> is_finite x = true.
Proof.
  intros Hx. destruct (Z.eq_dec b 0) as [->|Hb].
  - unfold truediv in Hx. by rewrite Z.eqb_refl in Hx.
  - destruct (truediv_cases a b Hb) as [(x' & Hx' & Hfin)|Hr]; congruence.
Qed.

Lemma statistics_mean_finite l v x :
  statistics_mean l = Ok v -> float_of_num v = Ok x -> is_finite x = true.
Proof.
  unfold statistics_mean. destruct (_ <? 1); [done|].
  destruct (_ =? 1).
  - intros [= <-]. apply of_int_finite.
  - destruct (truediv _ _) as [y|] eqn:Hy; [|done].
    intros [= <-] [= <-]. by eapply truediv_finite_result.
Qed.

Lemma statistics_median_finite l v x :
  statistics_median l = Ok v -> float_of_num v = Ok x -> is_finite x = true.
Proof.
  unfold statistics_median. destruct (Nat.eqb _ 0); [done|].
  destruct (Nat.eqb _ 1).
  - intros [= <-]. apply of_int_finite.
  - destruct (truediv _ _) as [y|] eqn:Hy; [|done].
    intros [= <-] [= <-]. by eapply truediv_finite_result.
Qed.

Lemma floats_of_finite ms xs :
  floats_of ms = Ok xs -> Forall (fun x => is_finite x = true) xs.
Proof.
  intros Hxs.
  destruct (floats_of_cases ms) as [(xs' & Hxs' & Hfin)|Hr]; congruence.
Qed.

(** What a returned snapshot is made of. *)
Lemma calculate_statistics_inv y ys cs :
  calculate_statistics (y :: ys) = Ok cs ->
  exists mean median fmin fmax fmean fmed fmodes,
    statistics_mean (y :: ys) = Ok mean /\
    statistics_median (y :: ys) = Ok median /\
    of_int (list_min y ys) = Ok fmin /\
    of_int (list_max y ys) = Ok fmax /\
    float_of_num mean = Ok fmean /\
    float_of_num median = Ok fmed /\
    floats_of (int_modes (y :: ys)) = Ok fmodes /\
    cs = [("count", SInt (Z.of_nat (length (y :: ys))));
          ("minimum", SFloat fmin);
          ("maximum", SFloat fmax);
          ("mean", SFloat fmean);
          ("median", SFloat fmed);
          ("modes", SFloats fmodes)].
Proof.
  unfold calculate_statistics. fold (int_modes (y :: ys)).
  destruct (statistics_mean (y :: ys)) as [mean|]; [|done].
  destruct (statistics_median (y :: ys)) as [median|]; [|done].
  cbn [mbind result_bind].
  destruct (of_int (list_min y ys)) as [fmin|]; [|done].
  destruct (of_int (list_max y ys)) as [fmax|]; [|done].
  destruct (float_of_num mean) as [fmean|] eqn:Hfmean; [|done].
  destruct (float_of_num median) as [fmed|] eqn:Hfmed; [|done].
  destruct (floats_of (int_modes (y :: ys))) as [fmodes|]; [|done].
  intros [= <-]. exists mean, median, fmin, fmax, fmean, fmed, fmodes.
  repeat split; assumption || reflexivity.
Qed.

(** ** The order of the input does not matter *)

Lemma int_sum_Permutation l l' : l ≡ₚ l' -> int_sum l = int_sum l'.
Proof.
  unfold int_sum. induction 1; simpl; lia.
Qed.

Lemma frequency_Permutation x l l' :
  l ≡ₚ l' -> frequency x l = frequency x l'.
Proof.
  induction 1; rewrite ?frequency_cons; lia.
Qed.

Lemma sorted_Permutation_eq l l' : l ≡ₚ l' -> sorted l = sorted l'.
Proof.
  intros Hp. apply (Sorted_unique Z.le).
  - apply Sorted_merge_sort; apply _.
  - apply Sorted_merge_sort; apply _.
  - by rewrite !sorted_Permutation.
Qed.

Lemma list_min_Permutation y ys y' ys' :
  y :: ys ≡ₚ y' :: ys' -> list_min y ys = list_min y' ys'.
Proof.
  intros Hp.
  destruct (list_min_spec ys y) as [Hin Hle].
  destruct (list_min_spec ys' y') as [Hin' Hle'].
  rewrite Hp in Hin. rewrite <- Hp in Hin'.
  specialize (Hle _ Hin'). specialize (Hle' _ Hin). lia.
Qed.

Lemma list_max_Permutation y ys y' ys' :
  y :: ys ≡ₚ y' :: ys' -> list_max y ys = list_max y' ys'.
Proof.
  intros Hp.
  destruct (list_max_spec ys y) as [Hin Hle].
  destruct (list_max_spec ys' y') as [Hin' Hle'].
  rewrite Hp in Hin. rewrite <- Hp in Hin'.
  specialize (Hle _ Hin'). specialize (Hle' _ Hin). lia.
Qed.

Lemma int_modes_Permutation l l' : l ≡ₚ l' -> int_modes l = int_modes l'.
Proof.
  intros Hp. destruct l as [|y ys].
  { apply Permutation_nil_l in Hp. by subst. }
  assert (l' <> []) as Hne'.
  { intros ->. by apply Permutation_nil_r in Hp. }
  unfold int_modes. apply sorted_Permutation_eq, NoDup_Permutation.
  - apply NoDup_keys_filter, Counter_ok.
  - apply NoDup_keys_filter, Counter_ok.
  - intros z. rewrite !most_frequent_elem by done.
    rewrite Hp. split; intros [Hz Hall]; (split; [done|]); intros w;
      specialize (Hall w);
      by rewrite (frequency_Permutation w _ _ Hp),
                 (frequency_Permutation z _ _ Hp) in *.
Qed.

(** Two orderings of the same values have the same statistics. *)
Theorem calculate_statistics_Permutation l l' :
  l ≡ₚ l' -> calculate_statistics l = calculate_statistics l'.
Proof.
  intros Hp. destruct l as [|y ys].
  { apply Permutation_nil_l in Hp. by subst. }
  destruct l' as [|y' ys'].
  { by apply Permutation_nil_r in Hp. }
  unfold calculate_statistics.
  fold (int_modes (y :: ys)). fold (int_modes (y' :: ys')).
  assert (statistics_mean (y :: ys) = statistics_mean (y' :: ys')) as ->.
  { unfold statistics_mean.
    by rewrite (int_sum_Permutation _ _ Hp), (Permutation_length Hp). }
  assert (statistics_median (y :: ys) = statistics_median (y' :: ys')) as ->.
  { unfold statistics_median. by rewrite (sorted_Permutation_eq _ _ Hp). }
  by rewrite (list_min_Permutation _ _ _ _ Hp),
             (list_max_Permutation _ _ _ _ Hp),
             (int_modes_Permutation _ _ Hp), (Permutation_length Hp).
Qed.


(** ** The mean of a dataset of the service *)

(** [mean_within] holds of every sum [a] and length [b] of a dataset of at
    most 15 ints between 1 and 100. *)
Lemma mean_table_ok :
  forall_upto 15 (fun b => forall_upto 1500 (fun a => mean_within a b)) = true.
Proof. vm_compute. reflexivity. Qed.

Lemma forall_upto_spec n f :
  forall_upto n f = true -> forall a, 1 <= a <= n -> f a = true.
Proof.
  unfold forall_upto. rewrite forallb_forall. intros Hf a Ha.
  specialize (Hf (Z.to_nat a)). rewrite Z2Nat.id in Hf by lia.
  apply Hf, in_seq. lia.
Qed.

Lemma mean_within_small a b :
  1 <= b <= 15 -> 1 <= a <= 1500 -> mean_within a b = true.
Proof.
  intros Hb Ha.
  pose proof (forall_upto_spec 15
                (fun b => forall_upto 1500 (fun a => mean_within a b))
                mean_table_ok b Hb) as H1.
  exact (forall_upto_spec 1500 (fun a => mean_within a b) H1 a Ha).
Qed.

Lemma int_sum_bounds l lo hi :
  (forall x, x ∈ l -> lo <= x <= hi) ->
  lo * Z.of_nat (length l) <= int_sum l <= hi * Z.of_nat (length l).
Proof.
  induction l as [|x l IH]; intros Hl; [simpl; lia|].
  change (int_sum (x :: l)) with (x + int_sum l).
  rewrite length_cons, Nat2Z.inj_succ.
  pose proof (Hl x (list_elem_of_here _ _)).
  specialize (IH (fun z Hz => Hl z (list_elem_of_further _ _ _ Hz))). lia.
Qed.

(** For a dataset of at most 15 ints between 1 and 100, as the service
    draws them, the mean of the snapshot lies between its minimum and its
    maximum. *)
Theorem mean_between_minimum_and_maximum numbers_y :
  numbers_y <> [] ->
  (length numbers_y <= 15)%nat ->
  Forall (fun x => 1 <= x <= 100) numbers_y ->
  exists cs fmin fmean fmax,
    calculate_statistics numbers_y = Ok cs /\
    getitem cs "minimum" = Ok (SFloat fmin) /\
    getitem cs "mean" = Ok (SFloat fmean) /\
    getitem cs "maximum" = Ok (SFloat fmax) /\
    Float.leb fmin fmean = true /\
    Float.leb fmean fmax = true.
Proof.
  intros Hne Hlen Hall.
  assert (Forall exact_int numbers_y) as Hexact.
  { eapply Forall_impl; [exact Hall|]. unfold exact_int. simpl.
    intros x Hx. change (2 ^ 53) with 9007199254740992. lia. }
  destruct (calculate_statistics_spec numbers_y Hne Hexact)
    as (mn & mx & r & fmin & fmax & fmean & fmed & fmodes & Hcs &
        [Hmn_in Hmn] & [Hmx_in Hmx] & Hrmin & Hrmax & _).
  eexists _, fmin, fmean, fmax. split; [exact Hcs|]. do 3 (split; [done|]).
  rewrite Forall_forall in Hall.
  assert (exists v, represents fmean v /\
                    mn * 2 ^ 1074 <= v <= mx * 2 ^ 1074) as (v & Hrmean & Hv).
  { destruct numbers_y as [|y ys]; [done|].
    destruct (calculate_statistics_inv _ _ _ Hcs)
      as (mean & median & fmin' & fmax' & fmean' & fmed' & fmodes' &
          Hmean & _ & _ & _ & Hfmean & _ & _ & Heq).
    injection Heq as _ _ <- _ _.
    pose proof (int_sum_bounds (y :: ys) mn mx) as Hsum.
    pose proof (int_sum_bounds (y :: ys) 1 100 Hall) as Hsum'.
    specialize (Hsum ltac:(intros x Hx; split; [by apply Hmn|by apply Hmx])).
    revert Hmean. unfold statistics_mean.
    set (total := int_sum (y :: ys)) in *.
    set (n := Z.of_nat (length (y :: ys))) in *.
    assert (1 <= n <= 15) as Hn by (subst n; simpl in *; lia).
    assert ((n <? 1) = false) as -> by (apply Z.ltb_ge; lia).
    set (g := Z.gcd total n).
    assert (0 < g) as Hg.
    { pose proof (Z.gcd_nonneg total n).
      destruct (Z.eq_dec g 0) as [Hg0|]; [|lia].
      apply Z.gcd_eq_0_r in Hg0. lia. }
    destruct (Z.gcd_divide_l total n) as [a Ha].
    destruct (Z.gcd_divide_r total n) as [b Hb]. fold g in Ha, Hb.
    assert (total / g = a) as -> by (rewrite Ha; apply Z.div_mul; lia).
    assert (n / g = b) as -> by (rewrite Hb; apply Z.div_mul; lia).
    assert (1 <= b <= 15) as Hb' by nia.
    assert (1 <= a <= 1500) as Ha' by nia.
    assert (mn * b <= a <= mx * b) as Hab by nia.
    assert (0 < 2 ^ 1074) as Hpos by apply scale_pos.
    destruct (Z.eqb_spec b 1) as [->|Hb1].
    - intros [= <-]. simpl in Hfmean.
      destruct (of_int_represents a) as (x & Hx & Hrep).
      { unfold exact_int. change (2 ^ 53) with 9007199254740992. lia. }
      rewrite Hx in Hfmean. injection Hfmean as ->.
      exists (a * 2 ^ 1074). split; [done|].
      generalize dependent (2 ^ 1074). intros. nia.
    - pose proof (mean_within_small a b Hb' Ha') as Hw.
      unfold mean_within in Hw.
      destruct (truediv_cases a b ltac:(lia)) as [(x & Hx & Hfin)|Hx];
        rewrite Hx in *; [|done].
      cbn [mbind result_bind]. intros [= <-]. simpl in Hfmean.
      injection Hfmean as ->.
      apply andb_true_iff in Hw as [Hw Hhi].
      apply andb_true_iff in Hw as [Hvalid Hlo].
      exists (scaled fmean). split; [done|].
      unfold int_leb in Hlo. unfold leb_int in Hhi.
      rewrite compare_int_scaled in Hlo, Hhi by done.
      assert (mn <= a / b) by (apply Z.div_le_lower_bound; lia).
      assert ((a + b - 1) / b <= mx).
      { assert ((a + b - 1) / b < mx + 1); [|lia].
        apply Z.div_lt_upper_bound; lia. }
      split.
      + destruct (Z.compare_spec (scaled fmean) (a / b * 2 ^ 1074));
          try done; generalize dependent (2 ^ 1074); intros; nia.
      + destruct (Z.compare_spec (scaled fmean) ((a + b - 1) / b * 2 ^ 1074));
          try done; generalize dependent (2 ^ 1074); intros; nia. }
  split; eapply leb_represents; try done; lia.
Qed.


End MoreStatistics.

(** * Further properties of the service *)

Section MoreService.

Variable float_of_str : string -> option float.

#[local] Abbreviation validate' := (validate float_of_str).
#[local] Abbreviation step2' := (step2_submit_statistics float_of_str).

(** ** Invariants of the reachable stores *)

(** A property of the entries and their keys holds in every reachable store
    when it holds of a freshly issued challenge and survives a counted
    attempt and a recorded success. *)
Lemma reachable_keyed (P : string -> challenge -> Prop) :
  (forall email k num_elements randint cs,
     randomness_ok num_elements randint ->
     calculate_statistics (map randint (seq 0 num_elements)) = Ok cs ->
     P k (Challenge email (map randint (seq 0 num_elements)) cs 0 JNull)) ->
  (forall k ci,
     P k ci -> step2_attempts ci < MAX_STEP2_ATTEMPTS -> P k (attempted ci)) ->
  (forall data us k ci errors,
     P k ci ->
     parse_request (Body data) = Fields data (JStr k) us ->
     all_present us = true ->
     step2_attempts ci < MAX_STEP2_ATTEMPTS ->
     validate' us (correct_stats ci) = Ok (true, errors) ->
     P k (succeeded (attempted ci) data)) ->
  forall s, reachable float_of_str s ->
  forall k ci, s !! k = Some ci -> P k ci.
Proof.
  intros Hnew Hatt Hsucc s Hs.
  induction Hs as [|s email key n randint Hs IH Hrand|s req Hs IH];
    intros k ci Hk.
  - by rewrite lookup_empty in Hk.
  - unfold step1_get_challenge in Hk.
    destruct email as [[|a email]|]; simpl in Hk; try by eapply IH.
    destruct (calculate_statistics (map randint (seq 0 n))) as [cs|e] eqn:Hcs;
      simpl in Hk; [|by eapply IH].
    destruct (decide (key = k)) as [->|Hne].
    + rewrite lookup_insert_eq in Hk. injection Hk as <-. by apply Hnew.
    + rewrite lookup_insert_ne in Hk by done. by eapply IH.
  - destruct (step2_store float_of_str req s)
      as [Heq|(data & us & k' & ci' & Hr & Ht & _)].
    { rewrite Heq in Hk. by eapply IH. }
    rewrite (step2_comparison float_of_str _ _ _ _ _ _ Hr) in Hk.
    destruct Hr as ((Hp & Hk' & Hall) & Hs' & Hlt).
    destruct (parse_request_fields _ _ _ _ Hp) as [-> _].
    destruct (decide (k' = k)) as [->|Hne].
    + destruct (validate' us (correct_stats ci')) as [[[] errors]|e] eqn:Hv;
        simpl in Hk; rewrite lookup_insert_eq in Hk; injection Hk as <-;
        eauto.
    + destruct (validate' us (correct_stats ci')) as [[[] errors]|e];
        simpl in Hk; rewrite lookup_insert_ne in Hk by done; by eapply IH.
Qed.

(** The attempt counter of a stored challenge never leaves
    [[0, MAX_STEP2_ATTEMPTS]]. *)
Theorem attempts_within_budget s k ci :
  reachable float_of_str s ->
  s !! k = Some ci ->
  0 <= step2_attempts ci <= MAX_STEP2_ATTEMPTS.
Proof.
  intros Hs. revert k ci.
  apply (reachable_keyed
           (fun _ ci => 0 <= step2_attempts ci <= MAX_STEP2_ATTEMPTS));
    simpl; try done; intros; lia.
Qed.

(** The ground truth of a stored challenge is the statistics of its own
    dataset, whatever was submitted since it was issued. *)
Theorem ground_truth_is_statistics_of_dataset s k ci :
  reachable float_of_str s ->
  s !! k = Some ci ->
  calculate_statistics (numbers_y ci) = Ok (correct_stats ci).
Proof.
  intros Hs. revert k ci.
  apply (reachable_keyed
           (fun _ ci =>
              calculate_statistics (numbers_y ci) = Ok (correct_stats ci)));
    simpl; done.
Qed.

(** A recorded submission is a payload that carries the key of its
    challenge, has its six statistics, and passes the six checks against
    that challenge's ground truth. *)
Theorem recorded_submission_is_correct s k ci :
  reachable float_of_str s ->
  s !! k = Some ci ->
  last_correct_submission_data ci <> JNull ->
  exists us,
    parse_request (Body (last_correct_submission_data ci))
      = Fields (last_correct_submission_data ci) (JStr k) us /\
    all_present us = true /\
    forallb snd (six_checks float_of_str us (correct_stats ci)) = true.
Proof.
  intros Hs. revert k ci.
  apply (reachable_keyed
           (fun k ci =>
              last_correct_submission_data ci <> JNull ->
              exists us,
                parse_request (Body (last_correct_submission_data ci))
                  = Fields (last_correct_submission_data ci) (JStr k) us /\
                all_present us = true /\
                forallb snd (six_checks float_of_str us (correct_stats ci))
                  = true)).
  - intros email k n randint cs _ _ Hlast. by simpl in Hlast.
  - intros k ci IH _ Hlast. exact (IH Hlast).
  - intros data us k ci errors _ Hp Hall _ Hv _.
    unfold succeeded, attempted.
    cbn [last_correct_submission_data correct_stats]. exists us.
    split; [done|]. split; [done|].
    pose proof (validate_spec float_of_str us (correct_stats ci)) as Hspec.
    rewrite Hv in Hspec. by destruct Hspec as [<- _].
  - exact Hs.
Qed.

(** ** What a submission can change *)

(** A submission adds and removes no challenge; it leaves every entry alone
    except the one under its own key, and there it only counts at most one
    attempt and possibly records a payload: email, dataset and ground truth
    stay as issued. *)
Theorem step2_frame req s k ci :
  s !! k = Some ci ->
  dom (step2' req s).2 = dom s /\
  exists ci',
    (step2' req s).2 !! k = Some ci' /\
    email ci' = email ci /\
    numbers_y ci' = numbers_y ci /\
    correct_stats ci' = correct_stats ci /\
    step2_attempts ci <= step2_attempts ci' <= step2_attempts ci + 1 /\
    (ci' = ci \/ exists data us, well_formed_for k req data us).
Proof.
  intros Hk.
  destruct (step2_store float_of_str req s)
    as [Heq|(data & us & k' & ci0 & Hr & Ht & Heq)].
  { rewrite Heq. split; [done|]. exists ci. repeat split; auto; lia. }
  destruct Hr as (Hwf & Hs' & Hlt).
  assert (dom (step2' req s).2 = dom s) as Hdom.
  { destruct Heq as [-> | ->]; by apply dom_insert_lookup_L. }
  split; [exact Hdom|].
  destruct (decide (k' = k)) as [->|Hne].
  - rewrite Hk in Hs'. injection Hs' as <-.
    destruct Heq as [-> | ->]; rewrite lookup_insert_eq; eexists;
      (split; [done|]); simpl; repeat split; eauto; lia.
  - exists ci. destruct Heq as [-> | ->]; rewrite lookup_insert_ne by done;
      repeat split; auto; lia.
Qed.

(** Once a submission is recorded, no later submission unsets it. *)
Theorem recorded_success_persists reqs s k ci :
  s !! k = Some ci ->
  last_correct_submission_data ci <> JNull ->
  exists ci',
    run float_of_str reqs s !! k = Some ci' /\
    last_correct_submission_data ci' <> JNull.
Proof.
  revert s ci. induction reqs as [|req reqs IH]; intros s ci Hk Hlast.
  - by exists ci.
  - simpl.
    destruct (step2_store float_of_str req s)
      as [Heq|(data & us & k' & ci0 & Hr & Ht & Heq)].
    { rewrite Heq. by eapply IH. }
    destruct Hr as (_ & Hs' & _).
    destruct (decide (k' = k)) as [->|Hne].
    + rewrite Hk in Hs'. injection Hs' as <-.
      destruct Heq as [-> | ->].
      * eapply IH; [apply lookup_insert_eq|done].
      * eapply IH; [apply lookup_insert_eq|]. simpl. by intros ->.
    + destruct Heq as [-> | ->]; (eapply IH; [|exact Hlast]);
        by rewrite lookup_insert_ne.
Qed.

(** The counter saturates: after any number of well-formed submissions
    against the key of a challenge with [a] attempts, it has
    [min (a + n) MAX_STEP2_ATTEMPTS] attempts. *)
Theorem attempts_saturate reqs s k ci :
  Forall (fun req => exists data us, well_formed_for k req data us) reqs ->
  s !! k = Some ci ->
  step2_attempts ci <= MAX_STEP2_ATTEMPTS ->
  exists ci',
    run float_of_str reqs s !! k = Some ci' /\
    step2_attempts ci'
    = Z.min (step2_attempts ci + Z.of_nat (length reqs)) MAX_STEP2_ATTEMPTS.
Proof.
  intros Hreqs. revert s ci.
  induction Hreqs as [|req reqs (data & us & Hwf) Hreqs IH];
    intros s ci Hk Hle.
  - exists ci. simpl. split; [done|lia].
  - rewrite length_cons, Nat2Z.inj_succ. simpl.
    destruct (Z.lt_ge_cases (step2_attempts ci) MAX_STEP2_ATTEMPTS) as [Hlt|Hge].
    + destruct (step2_counts float_of_str req s data us k ci Hwf Hk Hlt)
        as (ci1 & Hk1 & Hatt1).
      destruct (IH _ ci1 Hk1 ltac:(lia)) as (ci' & Hk' & Hatt').
      exists ci'. split; [exact Hk'|]. lia.
    + rewrite (step2_at_limit float_of_str req s data us k ci Hwf Hk Hge).
      simpl. destruct (IH _ ci Hk Hle) as (ci' & Hk' & Hatt').
      exists ci'. split; [exact Hk'|]. lia.
Qed.


(** ** The floats of the ground truth *)

Lemma eqb_refl_finite x : Float.is_finite x = true -> Float.eqb x x = true.
Proof.
  destruct x as [s|s| |s m e]; try done. intros _.
  unfold Float.eqb, SFeqb, SFcompare.
  rewrite Z.compare_refl, Pos.compare_cont_refl. by destruct s.
Qed.

Lemma isclose_refl x rel_tol abs_tol :
  Float.is_finite x = true -> Float.isclose x x rel_tol abs_tol = true.
Proof. intros Hx. unfold Float.isclose. by rewrite eqb_refl_finite. Qed.

Lemma eqb_non_finite x y :
  Float.is_finite x = false -> Float.is_finite y = true ->
  Float.eqb x y = false.
Proof. by destruct x as [|[]| |], y as [|[]| |[]]. Qed.

(** Neither NaN nor an infinity is close to a finite float. *)
Lemma isclose_non_finite x y rel_tol abs_tol :
  Float.is_finite x = false -> Float.is_finite y = true ->
  Float.isclose x y rel_tol abs_tol = false.
Proof.
  intros Hx Hy. unfold Float.isclose. rewrite eqb_non_finite by done.
  destruct x as [|sx| |]; try done.
  by destruct y, (Float.mul rel_tol S754_nan), abs_tol.
Qed.

Lemma reachable_ground_truth_finite s k ci :
  reachable float_of_str s -> s !! k = Some ci -> ground_truth_finite ci.
Proof.
  intros Hs. revert k ci.
  apply (reachable_keyed (fun _ ci => ground_truth_finite ci));
    [|done|done|done].
  intros email k n randint cs Hrand Hcs.
  destruct (dataset_ok _ _ Hrand) as (Hne & _).
  destruct (map randint (seq 0 n)) as [|y ys] eqn:Hl; [done|].
  destruct (calculate_statistics_inv _ _ _ Hcs)
    as (mean & median & fmin & fmax & fmean & fmed & fmodes &
        Hmean & Hmedian & Hfmin & Hfmax & Hfmean & Hfmed & Hfmodes & ->).
  exists fmin, fmax, fmean, fmed, fmodes. split; [done|].
  repeat apply Forall_cons_2.
  - by eapply of_int_finite.
  - by eapply of_int_finite.
  - by eapply statistics_mean_finite.
  - by eapply statistics_median_finite.
  - by eapply floats_of_finite.
Qed.


(** ** Submissions that are accepted, and values that never are *)

(** A submission with the count of the dataset, with four values that
    convert to the floats of the ground truth and with a mode that converts
    to one of its modes, whichever one, is answered with the success
    response and recorded. *)
Theorem matching_submission_succeeds req s data us k ci fmodes x :
  reachable float_of_str s ->
  reaches_comparison req s data us k ci ->
  u_count us = JInt (Z.of_nat (length (numbers_y ci))) ->
  (float_of_json float_of_str (u_minimum us) ≫= fun x => Ok (SFloat x))
    = getitem (correct_stats ci) "minimum" ->
  (float_of_json float_of_str (u_maximum us) ≫= fun x => Ok (SFloat x))
    = getitem (correct_stats ci) "maximum" ->
  (float_of_json float_of_str (u_mean us) ≫= fun x => Ok (SFloat x))
    = getitem (correct_stats ci) "mean" ->
  (float_of_json float_of_str (u_median us) ≫= fun x => Ok (SFloat x))
    = getitem (correct_stats ci) "median" ->
  float_of_json float_of_str (u_mode us) = Ok x ->
  getitem (correct_stats ci) "modes" = Ok (SFloats fmodes) ->
  x ∈ fmodes ->
  step2' req s = (success, <[k := succeeded (attempted ci) data]> s).
Proof.
  intros Hs Hreach Hcount Hmin Hmax Hmean Hmed Hmode Hmodes Hx.
  pose proof Hreach as (_ & Hk & _).
  destruct (reachable_ground_truth_finite s k ci Hs Hk)
    as (fmin & fmax & fmean & fmed & fmodes' & Hcs & Hfin).
  rewrite (step2_comparison float_of_str _ _ _ _ _ _ Hreach).
  rewrite Hcs in Hmin, Hmax, Hmean, Hmed, Hmodes. rewrite Hcs.
  repeat match type of Hfin with
  | Forall _ (_ :: _) => apply Forall_cons in Hfin as [? Hfin]
  end.
  injection Hmodes as <-.
  assert (existsb (Float.eqb x) fmodes' = true) as Hin.
  { apply existsb_exists. exists x. split; [by apply list_elem_of_In|].
    apply eqb_refl_finite. rewrite Forall_forall in Hfin. by apply Hfin. }
  unfold validate, check_count, check_minimum, check_maximum, check_mean,
    check_median, check_mode.
  repeat match goal with
  | |- context [getitem ?d ?name] =>
    let c := eval vm_compute in (getitem d name) in
    change (getitem d name) with c
  end.
  repeat match goal with
  | H : context [getitem ?d ?name] |- _ =>
    let c := eval vm_compute in (getitem d name) in
    change (getitem d name) with c in H
  end.
  rewrite Hcount, Hmode.
  destruct (float_of_json float_of_str (u_minimum us)) as [a|]; [|done].
  destruct (float_of_json float_of_str (u_maximum us)) as [b|]; [|done].
  destruct (float_of_json float_of_str (u_mean us)) as [c|]; [|done].
  destruct (float_of_json float_of_str (u_median us)) as [d|]; [|done].
  injection Hmin as ->. injection Hmax as ->. injection Hmean as ->.
  injection Hmed as ->.
  cbn [mbind result_bind json_eq_stat float_of_stat float_in_stat].
  unfold Float.isclose_default.
  rewrite Z.eqb_refl, !isclose_refl, Hin by done. done.
Qed.

(** A submitted NaN or infinity, in any of minimum, maximum, mean, median
    and mode, is never accepted: the response is not the success response
    and the attempt is counted without recording anything. *)
Theorem non_finite_value_never_accepted req s data us k ci u x :
  reachable float_of_str s ->
  reaches_comparison req s data us k ci ->
  u ∈ float_fields us ->
  float_of_json float_of_str u = Ok x ->
  Float.is_finite x = false ->
  (step2' req s).1 <> success /\
  (step2' req s).2 = <[k := attempted ci]> s.
Proof.
  intros Hs Hreach Hu Hx Hnf.
  pose proof Hreach as (_ & Hk & _).
  destruct (reachable_ground_truth_finite s k ci Hs Hk)
    as (fmin & fmax & fmean & fmed & fmodes & Hcs & Hfin).
  repeat match type of Hfin with
  | Forall _ (_ :: _) => apply Forall_cons in Hfin as [? Hfin]
  end.
  assert (forallb snd (six_checks float_of_str us (correct_stats ci)) = false)
    as Hfalse.
  { rewrite Hcs. unfold six_checks, close_passes, mode_passes.
    repeat match goal with
    | |- context [getitem ?d ?name] =>
      let c := eval vm_compute in (getitem d name) in
      change (getitem d name) with c
    end.
    cbn [mbind result_bind float_of_stat forallb snd].
    unfold float_fields in Hu.
    repeat (apply elem_of_cons in Hu as [-> | Hu]);
      [| | | | |by apply elem_of_nil in Hu];
      rewrite Hx, ?isclose_non_finite by done;
      rewrite ?andb_false_r; try done.
    assert (existsb (Float.eqb x) fmodes = false) as ->.
    { apply not_true_is_false. intros (y & Hy & Heq)%existsb_exists.
      rewrite Forall_forall in Hfin.
      rewrite eqb_non_finite in Heq; [done|done|].
      by apply Hfin, list_elem_of_In. }
    by rewrite ?andb_false_r. }
  rewrite (step2_comparison float_of_str _ _ _ _ _ _ Hreach).
  pose proof (validate_spec float_of_str us (correct_stats ci)) as Hspec.
  destruct (validate float_of_str us (correct_stats ci)) as [[v errors]|e].
  - destruct Hspec as [-> _]. rewrite Hfalse. done.
  - done.
Qed.

(** A mean submitted as a string is converted by [float], but the log line
    of a mean mismatch formats it with [:.2f]: when the first three checks
    run and the mean is off, the request crashes with [ValueError], after
    the attempt is counted. *)
Theorem mismatching_string_mean_crashes req s data us k ci str x a b fmean :
  reachable float_of_str s ->
  reaches_comparison req s data us k ci ->
  float_of_json float_of_str (u_minimum us) = Ok a ->
  float_of_json float_of_str (u_maximum us) = Ok b ->
  u_mean us = JStr str ->
  float_of_str str = Some x ->
  getitem (correct_stats ci) "mean" = Ok (SFloat fmean) ->
  Float.isclose x fmean Float.tol_1e_9 Float.tol_1e_9 = false ->
  step2' req s = (Crashed ValueError, <[k := attempted ci]> s).
Proof.
  intros Hs Hreach Hmin Hmax Hmean Hstr Hfmean Hfar.
  pose proof Hreach as (_ & Hk & _).
  destruct (reachable_ground_truth_finite s k ci Hs Hk)
    as (fmin & fmax & fmean' & fmed & fmodes & Hcs & _).
  rewrite (step2_comparison float_of_str _ _ _ _ _ _ Hreach).
  rewrite Hcs in Hfmean. injection Hfmean as ->. rewrite Hcs.
  unfold validate, check_count, check_minimum, check_maximum, check_mean.
  repeat match goal with
  | |- context [getitem ?d ?name] =>
    let c := eval vm_compute in (getitem d name) in
    change (getitem d name) with c
  end.
  rewrite Hmin, Hmax, Hmean.
  cbn [mbind result_bind float_of_stat float_of_json format_2f_stat format_2f].
  rewrite Hstr. cbn [mbind result_bind]. rewrite Hfar.
  by destruct (negb (json_eq_stat _ _)),
       (negb (Float.isclose_default a fmin)),
       (negb (Float.isclose_default b fmax)).
Qed.

(** ** Rejections *)

(** Every response other than the plain success and the plain failure
    leaves the store as it was; its status is 400, 429 or, for the
    rate-limit note, 200. *)
Theorem rejections_leave_the_store req s body status :
  (step2' req s).1 = Response body status ->
  (status = 200 \/ status = 400 \/ status = 429) /\
  (Response body status <> success -> Response body status <> failure ->
   (step2' req s).2 = s).
Proof.
  destruct (parse_request req) as [r|data key us] eqn:Hp.
  { unfold step2_submit_statistics. rewrite Hp. simpl. intros ->.
    split; [|done]. unfold parse_request in Hp.
    destruct req as [|d]; [simplify_eq; auto|].
    destruct (negb (truthy d)); [simplify_eq; auto|].
    destruct d; simpl in Hp; simplify_eq; auto. }
  destruct (negb (truthy key) || negb (all_present us)) eqn:Hc.
  { unfold step2_submit_statistics. rewrite Hp, Hc. simpl.
    intros [= <- <-]. auto. }
  apply orb_false_elim in Hc as [Hkey Hall].
  apply negb_false_iff in Hkey, Hall.
  destruct key as [| | | |k| |];
    try (unfold step2_submit_statistics; rewrite Hp; simpl in *;
         rewrite ?Hkey, ?Hall; simpl; intros [= <- <-]; by auto).
  destruct (s !! k) as [ci|] eqn:Hs.
  2:{ unfold step2_submit_statistics. rewrite Hp. simpl in *.
      rewrite Hkey, Hall, Hs. simpl. intros [= <- <-]. auto. }
  destruct (MAX_STEP2_ATTEMPTS <=? step2_attempts ci) eqn:Hmax.
  { unfold step2_submit_statistics. rewrite Hp. simpl in *.
    rewrite Hkey, Hall, Hs. simpl. rewrite Hmax.
    destruct (truthy (last_correct_submission_data ci)); simpl;
      intros [= <- <-]; auto. }
  assert (reaches_comparison req s data us k ci) as Hreach.
  { repeat split; try done.
    - simpl in Hkey. apply negb_true_iff in Hkey. by apply String.eqb_neq.
    - by apply Z.leb_gt. }
  rewrite (step2_comparison float_of_str _ _ _ _ _ _ Hreach).
  destruct (validate float_of_str us (correct_stats ci)) as [[[] ?]|?];
    simpl; [| |done]; intros [= <- <-]; split; auto; done.
Qed.

(** A status 200 always stands for a recorded submission: after it, the
    challenge of the submitted key holds one. *)
Theorem ok_means_recorded req s body :
  (step2' req s).1 = Response body 200 ->
  exists data us k ci',
    well_formed_for k req data us /\
    (step2' req s).2 !! k = Some ci' /\
    truthy (last_correct_submission_data ci') = true.
Proof.
  destruct (parse_request req) as [r|data key us] eqn:Hp.
  { unfold step2_submit_statistics. rewrite Hp. simpl. intros ->.
    unfold parse_request in Hp.
    destruct req as [|d]; [done|].
    destruct (negb (truthy d)); [done|].
    destruct d; simpl in Hp; done. }
  destruct (parse_request_fields _ _ _ _ Hp) as [_ Hdata].
  destruct (negb (truthy key) || negb (all_present us)) eqn:Hc.
  { unfold step2_submit_statistics. by rewrite Hp, Hc. }
  apply orb_false_elim in Hc as [Hkey Hall].
  apply negb_false_iff in Hkey, Hall.
  destruct key as [| | | |k| |];
    try (unfold step2_submit_statistics; rewrite Hp; simpl in *;
         rewrite ?Hkey, ?Hall; simpl; done).
  assert (well_formed_for k req data us) as Hwf.
  { repeat split; try done.
    simpl in Hkey. apply negb_true_iff in Hkey. by apply String.eqb_neq. }
  destruct (s !! k) as [ci|] eqn:Hs.
  2:{ unfold step2_submit_statistics. rewrite Hp. simpl in *.
      by rewrite Hkey, Hall, Hs. }
  destruct (Z.le_gt_cases MAX_STEP2_ATTEMPTS (step2_attempts ci)) as [Hmax|Hlt].
  { rewrite (step2_at_limit float_of_str _ _ _ _ _ _ Hwf Hs Hmax). simpl.
    destruct (truthy (last_correct_submission_data ci)) eqn:Ht; [|done].
    intros _. by exists data, us, k, ci. }
  rewrite (step2_comparison float_of_str req s data us k ci) by done.
  destruct (validate float_of_str us (correct_stats ci)) as [[[] ?]|?];
    simpl; [|done|done].
  intros _. exists data, us, k, (succeeded (attempted ci) data).
  split; [done|]. split; [apply lookup_insert_eq|done].
Qed.

(** A well-formed submission under a key that the store does not hold is
    answered with the invalid-key response, and creates no challenge. *)
Theorem unknown_key_rejected req s data us k :
  well_formed_for k req data us ->
  s !! k = None ->
  step2' req s
  = (Response (message "Please try again!!! (Invalid secret_key)") 400, s).
Proof.
  intros (Hp & Hk & Hall) Hs.
  unfold step2_submit_statistics. rewrite Hp. simpl.
  assert (String.eqb k "" = false) as -> by by apply String.eqb_neq.
  by rewrite Hall, Hs.
Qed.

(** A secret key that is a non-empty JSON array or object is unhashable:
    with the six statistics present, the lookup raises [TypeError], which
    nothing catches; the store is unchanged. *)
Theorem unhashable_key_crashes req s data key us :
  parse_request req = Fields data key us ->
  all_present us = true ->
  truthy key = true ->
  (exists l, key = JList l) \/ (exists d, key = JDict d) ->
  step2' req s = (Crashed TypeError, s).
Proof.
  intros Hp Hall Hkey Hshape.
  unfold step2_submit_statistics. rewrite Hp, Hkey, Hall. simpl.
  by destruct Hshape as [[l ->]|[d ->]].
Qed.

(** ** Issuance *)

(** With an email, and whatever the store holds, issuing a challenge never
    fails: the client gets status 200 with the key and the numbers, and the
    store holds under that key exactly those numbers, their statistics, no
    attempt and no recorded submission; every other entry is untouched. *)
Theorem issuance_stores_what_it_returns email key num_elements randint s :
  email <> "" ->
  randomness_ok num_elements randint ->
  exists body ci,
    step1_get_challenge (Some email) key num_elements randint s
    = (Response body 200, <[key := ci]> s) /\
    json_get body "secret_key" = Ok (JStr key) /\
    json_get body "numbers" = Ok (JList (map JInt (numbers_y ci))) /\
    calculate_statistics (numbers_y ci) = Ok (correct_stats ci) /\
    step2_attempts ci = 0 /\
    last_correct_submission_data ci = JNull /\
    (5 <= length (numbers_y ci) <= 15)%nat /\
    Forall (fun y => 1 <= y <= 100) (numbers_y ci).
Proof.
  intros Hemail Hrand.
  destruct (dataset_ok _ _ Hrand) as (Hne & Hexact & Hlen & Hall).
  destruct (calculate_statistics_spec _ Hne Hexact)
    as (mn & mx & r & fmin & fmax & fmean & fmed & fmodes & Hcs & _).
  eexists _, (Challenge email (map randint (seq 0 num_elements)) _ 0 JNull).
  split.
  - unfold step1_get_challenge. destruct email as [|c email]; [done|].
    by rewrite Hcs.
  - simpl. repeat split; try done; apply Hlen.
Qed.

End MoreService.
(** * Instances and counterexamples *)

(** Conversions and quotients on known values: [float(5)], the tie
    [float(2**53 + 3)] which goes up to the even mantissa, [1 / 3], and the
    literal [1e-9] as [1 / 10**9]. *)
Example of_int_5 :
  Float.of_int 5 = Ok (S754_finite false 5629499534213120 (-50)).
Proof. reflexivity. Qed.

Example of_int_tie :
  Float.of_int (2 ^ 53 + 3) = Ok (S754_finite false 4503599627370498 1).
Proof. reflexivity. Qed.

Example truediv_1_3 :
  Float.truediv 1 3 = Ok (S754_finite false 6004799503160661 (-54)).
Proof. reflexivity. Qed.

Example truediv_tol : Float.truediv 1 (10 ^ 9) = Ok Float.tol_1e_9.
Proof. reflexivity. Qed.

(** An int beyond the doubles does not convert: the engine raises. *)
Example calculate_statistics_overflow :
  calculate_statistics [10 ^ 400] = Raise OverflowError.
Proof. vm_compute. reflexivity. Qed.

(** [math.isclose] with its defaults tells 18 from 18.000001, and not from
    18 + 2^-48. *)
Example isclose_default_far :
  Float.isclose_default (S754_finite false 5066549580791808 (-48))
    (S754_finite false 5066549862266785 (-48)) = false.
Proof. vm_compute. reflexivity. Qed.

Example isclose_default_near :
  Float.isclose_default (S754_finite false 5066549580791808 (-48))
    (S754_finite false 5066549580791809 (-48)) = true.
Proof. vm_compute. reflexivity. Qed.

Lemma example_statistics :
  calculate_statistics [10; 20; 15; 20; 25] = Ok example_stats.
Proof. reflexivity. Qed.

Lemma example_randomness : randomness_ok 5 example_randint.
Proof.
  split; [lia|]. intros i. unfold example_randint.
  do 5 (destruct i as [|i]; [simpl; lia|]). destruct i; simpl; lia.
Qed.

Lemma example_reaches mean median mode :
  reaches_comparison (example_request mean median mode) example_store
    (example_data mean median mode) (example_fields mean median mode)
    "5f2b" (example_challenge 0 JNull).
Proof. repeat split; done. Qed.

Lemma example_well_formed mean median mode :
  well_formed_for "5f2b" (example_request mean median mode)
    (example_data mean median mode) (example_fields mean median mode).
Proof. repeat split; done. Qed.

Lemma reachable_run float_of_str reqs s :
  reachable float_of_str s -> reachable float_of_str (run float_of_str reqs s).
Proof.
  revert s. induction reqs as [|req reqs IH]; intros s Hs; [done|].
  simpl. apply IH. by constructor.
Qed.

Lemma example_reachable : reachable no_str_floats example_store.
Proof. apply reach_step1; [constructor|apply example_randomness]. Defined.



Lemma C2_witness :
  let a := step2_submit_statistics no_str_floats (example_request 18 20 20)
             example_store in
  let b := step2_submit_statistics no_str_floats (example_request 18 20 15)
             a.2 in
  let c := step2_submit_statistics no_str_floats (Body decimal_data) b.2 in
  a.1 = success /\
  last_correct_submission_data <$> a.2 !! "5f2b"
    = Some (example_data 18 20 20) /\
  b.1 <> success /\
  (b.1 = failure \/ exists e, b.1 = Crashed e) /\
  ((forall str, u_mean (example_fields 18 20 15) <> JStr str) ->
   Forall (fun u => exists x, float_of_json no_str_floats u = Ok x)
     (float_fields (example_fields 18 20 15)) ->
   b.1 = failure) /\
  last_correct_submission_data <$> b.2 !! "5f2b"
    = Some (example_data 18 20 20) /\
  c.1 = success /\
  last_correct_submission_data <$> c.2 !! "5f2b" = Some decimal_data.
Proof.
  apply (C2_last_correct_wins no_str_floats
           (example_request 18 20 20) (example_request 18 20 15)
           (Body decimal_data)
           (example_data 18 20 20) (example_data 18 20 15) decimal_data
           (example_fields 18 20 20) (example_fields 18 20 15) decimal_fields
           example_store "5f2b" (example_challenge 0 JNull)).
  - apply example_reachable.
  - reflexivity.
  - vm_compute. discriminate.
  - apply example_well_formed.
  - apply example_well_formed.
  - repeat split; done.
  - reflexivity.
  - reflexivity.
  - reflexivity.
Defined.

(** After a correct submission, one with the minimum [10 ** 400] is not
    correct, and it is not answered with the failure response: the request
    ends with [OverflowError], the correct submission still recorded. *)
Lemma C2_counterexample :
  let a := step2_submit_statistics no_str_floats (example_request 18 20 20)
             example_store in
  let b := step2_submit_statistics no_str_floats (Body overflow_data) a.2 in
  well_formed_for "5f2b" (Body overflow_data) overflow_data overflow_fields /\
  a.1 = success /\
  forallb snd (six_checks no_str_floats overflow_fields example_stats)
  = false /\
  b.1 = Crashed OverflowError /\
  b.1 <> failure /\
  last_correct_submission_data <$> b.2 !! "5f2b"
  = Some (example_data 18 20 20).
Proof.
  split; [repeat split; done|].
  split; [vm_compute; reflexivity|].
  split; [vm_compute; reflexivity|].
  assert ((step2_submit_statistics no_str_floats (Body overflow_data)
             (step2_submit_statistics no_str_floats (example_request 18 20 20)
                example_store).2).1 = Crashed OverflowError) as Hb
    by (vm_compute; reflexivity).
  cbv zeta. rewrite Hb.
  split; [reflexivity|]. split; [discriminate|]. vm_compute. reflexivity.
Qed.


Lemma C4_witness :
  step2_attempts <$> example_store !! "5f2b" = Some 0 /\
  step2_attempts <$>
    run no_str_floats [example_request 18 20 15; example_request 18 20 20]
      example_store !! "5f2b"
  = Some 2.
Proof.
  apply (C4_attempt_counting no_str_floats "user@example.com" "5f2b" 5
           example_randint ∅
           [example_request 18 20 15; example_request 18 20 20]).
  - discriminate.
  - apply example_randomness.
  - repeat constructor; eexists _, _; apply example_well_formed.
  - reflexivity.
Defined.

(** A body without ["median"] is answered with the missing-fields response. *)
Lemma C5_witness :
  step2_submit_statistics no_str_floats
    (Body (JDict [("secret_key", JStr "5f2b"); ("count", JInt 5);
                  ("minimum", JInt 10); ("maximum", JInt 25);
                  ("mean", JInt 18); ("mode", JInt 20)]))
    example_store
  = (missing_fields, example_store).
Proof.
  apply (C5_missing_fields no_str_floats).
  - discriminate.
  - exists "median". split; [|by left].
    apply list_elem_of_In. simpl. auto 10.
Defined.

(** The empty object has no [secret_key], and it is answered with the
    invalid-JSON response, not with the missing-fields one. *)
Lemma C5_counterexample :
  assoc "secret_key" ([] : list (string * json)) = None /\
  (step2_submit_statistics no_str_floats (Body (JDict [])) example_store).1
  = Response (message "Please try again!!! (Invalid JSON)") 400 /\
  (step2_submit_statistics no_str_floats (Body (JDict [])) example_store).1
  <> missing_fields.
Proof. repeat split. discriminate. Qed.

Lemma level_randomness : randomness_ok 5 level_randint.
Proof.
  split; [lia|]. intros i. unfold level_randint.
  do 5 (destruct i as [|i]; [simpl; lia|]). destruct i; simpl; lia.
Qed.

(** C6 (the code at the failing input). One submission, whose mean is the
    string ["17"] and whose minimum, maximum, median and mode are those of
    neither dataset, is sent to two challenges of reachable stores and is
    correct for neither. Against the dataset of mean 18 the request ends
    with [ValueError], raised by [:.2f] on the string; against the dataset
    of mean 17 it gets the 400 failure response. The outcome tells whether
    the submitted mean is the right one. *)
Lemma C6_string_mean_probe :
  reachable float_of_17 example_store /\
  reachable float_of_17 level_store /\
  correct_stats <$> example_store !! "5f2b" = Some example_stats /\
  correct_stats <$> level_store !! "5f2b" = Some level_stats /\
  getitem example_stats "mean"
  = Ok (SFloat (S754_finite false 5066549580791808 (-48))) /\
  getitem level_stats "mean"
  = Ok (SFloat (S754_finite false 4785074604081152 (-48))) /\
  float_of_json float_of_17 (u_mean string_fields)
  = Ok (S754_finite false 4785074604081152 (-48)) /\
  forallb snd (six_checks float_of_17 string_fields example_stats) = false /\
  forallb snd (six_checks float_of_17 string_fields level_stats) = false /\
  (step2_submit_statistics float_of_17 (Body string_data) example_store).1
  = Crashed ValueError /\
  (step2_submit_statistics float_of_17 (Body string_data) level_store).1
  = Response (message "Please try again!!!") 400.
Proof.
  split; [apply reach_step1; [constructor|apply example_randomness]|].
  split; [apply reach_step1; [constructor|apply level_randomness]|].
  repeat split; vm_compute; reflexivity.
Qed.

Lemma example_exact : Forall exact_int [10; 20; 15; 20; 25].
Proof. repeat constructor; vm_compute; discriminate. Defined.

Lemma C7_witness :
  exists cs fmin fmax fmed,
    calculate_statistics [10; 20; 15; 20; 25] = Ok cs /\
    getitem cs "minimum" = Ok (SFloat fmin) /\
    getitem cs "maximum" = Ok (SFloat fmax) /\
    getitem cs "median" = Ok (SFloat fmed) /\
    (forall x, x ∈ [10; 20; 15; 20; 25] ->
       Float.leb_int fmin x = true /\ Float.int_leb x fmax = true) /\
    Float.leb fmin fmed = true /\
    Float.leb fmed fmax = true.
Proof.
  apply (C7_minimum_median_maximum [10; 20; 15; 20; 25]).
  - discriminate.
  - apply example_exact.
Defined.

(** [float(2**53 + 1)] is [2.0**53]: the maximum of the snapshot is below the
    only element of the input. *)
Lemma C7_counterexample :
  calculate_statistics [9007199254740993]
  = Ok [("count", SInt 1);
        ("minimum", SFloat (S754_finite false 4503599627370496 1));
        ("maximum", SFloat (S754_finite false 4503599627370496 1));
        ("mean", SFloat (S754_finite false 4503599627370496 1));
        ("median", SFloat (S754_finite false 4503599627370496 1));
        ("modes", SFloats [S754_finite false 4503599627370496 1])] /\
  Float.int_leb 9007199254740993 (S754_finite false 4503599627370496 1)
  = false.
Proof. split; reflexivity. Qed.

Lemma C8_witness :
  exists cs modes,
    calculate_statistics [10; 20; 15; 20; 25] = Ok cs /\
    getitem cs "modes" = Ok (SFloats modes) /\
    modes <> [] /\
    StronglySorted (fun x y => Float.ltb x y = true) modes /\
    (forall x, x ∈ modes ->
       exists z, Float.eqb_int x z = true /\ z ∈ [10; 20; 15; 20; 25] /\
         forall y, (frequency y [10; 20; 15; 20; 25]%Z
                    <= frequency z [10; 20; 15; 20; 25]%Z)%nat) /\
    (forall z,
       (exists x, x ∈ modes /\ Float.eqb_int x z = true) <->
       (z ∈ [10; 20; 15; 20; 25] /\
        forall y, (frequency y [10; 20; 15; 20; 25]%Z
                   <= frequency z [10; 20; 15; 20; 25]%Z)%nat)).
Proof.
  apply (C8_modes [10; 20; 15; 20; 25]).
  - discriminate.
  - apply example_exact.
Defined.

(** Both [2**53] and [2**53 + 1] occur once, and both become [2.0**53]: the
    modes hold the same float twice, and none of them equals
    [2**53 + 1]. *)
Lemma C8_counterexample :
  (calculate_statistics [9007199254740992; 9007199254740993]
     ≫= fun cs => getitem cs "modes")
  = Ok (SFloats [S754_finite false 4503599627370496 1;
                 S754_finite false 4503599627370496 1]) /\
  Float.eqb_int (S754_finite false 4503599627370496 1) 9007199254740993
  = false /\
  frequency 9007199254740993 [9007199254740992; 9007199254740993]
  = frequency 9007199254740992 [9007199254740992; 9007199254740993] /\
  Float.ltb (S754_finite false 4503599627370496 1)
    (S754_finite false 4503599627370496 1) = false.
Proof. repeat split; reflexivity. Qed.

(** The snapshot of the empty input has no [modes] list, empty or not: its
    key is ["mode"], and it holds [None]. *)
Lemma C9_counterexample :
  ~ (exists cs,
       calculate_statistics [] = Ok cs /\
       getitem cs "modes" = Ok (SFloats [])).
Proof. intros (cs & [= <-] & Hmodes). discriminate Hmodes. Qed.

Lemma C10_witness :
  ground_truth_ok (example_challenge 0 JNull) /\
  (forall us e,
     validate no_str_floats us example_stats = Raise e ->
     float_of_json no_str_floats (u_minimum us) = Raise e \/
     float_of_json no_str_floats (u_maximum us) = Raise e \/
     float_of_json no_str_floats (u_mean us) = Raise e \/
     format_2f (u_mean us) = Raise e \/
     float_of_json no_str_floats (u_median us) = Raise e \/
     float_of_json no_str_floats (u_mode us) = Raise e).
Proof.
  apply (C10_ground_truth_never_absent no_str_floats example_store "5f2b"
           (example_challenge 0 JNull)).
  - apply example_reachable.
  - reflexivity.
Defined.

(** * Instances of the further properties *)

Lemma recorded_reachable : reachable no_str_floats recorded_store.
Proof. apply reach_step2, example_reachable. Defined.

Lemma calculate_statistics_Permutation_witness :
  calculate_statistics [10; 20; 15; 20; 25]
  = calculate_statistics [20; 10; 15; 20; 25].
Proof.
  apply (calculate_statistics_Permutation [10; 20; 15; 20; 25]
           [20; 10; 15; 20; 25]).
  apply perm_swap.
Defined.

Lemma mean_between_witness :
  exists cs fmin fmean fmax,
    calculate_statistics [10; 20; 15; 20; 25] = Ok cs /\
    getitem cs "minimum" = Ok (SFloat fmin) /\
    getitem cs "mean" = Ok (SFloat fmean) /\
    getitem cs "maximum" = Ok (SFloat fmax) /\
    Float.leb fmin fmean = true /\
    Float.leb fmean fmax = true.
Proof.
  apply (mean_between_minimum_and_maximum [10; 20; 15; 20; 25]).
  - discriminate.
  - simpl. lia.
  - repeat constructor; lia.
Defined.

Lemma attempts_within_budget_witness :
  0 <= step2_attempts (example_challenge 10 JNull) <= MAX_STEP2_ATTEMPTS.
Proof.
  apply (attempts_within_budget no_str_floats exhausted_store "5f2b"
           (example_challenge 10 JNull)).
  - apply reachable_run, example_reachable.
  - reflexivity.
Defined.

Lemma ground_truth_is_statistics_witness :
  calculate_statistics (numbers_y (example_challenge 10 JNull))
  = Ok (correct_stats (example_challenge 10 JNull)).
Proof.
  apply (ground_truth_is_statistics_of_dataset no_str_floats exhausted_store
           "5f2b" (example_challenge 10 JNull)).
  - apply reachable_run, example_reachable.
  - reflexivity.
Defined.

Lemma recorded_submission_witness :
  exists us,
    parse_request (Body (example_data 18 20 20))
      = Fields (example_data 18 20 20) (JStr "5f2b") us /\
    all_present us = true /\
    forallb snd (six_checks no_str_floats us example_stats) = true.
Proof.
  apply (recorded_submission_is_correct no_str_floats recorded_store "5f2b"
           (example_challenge 1 (example_data 18 20 20))).
  - apply recorded_reachable.
  - reflexivity.
  - discriminate.
Defined.

Lemma step2_frame_witness :
  dom (step2_submit_statistics no_str_floats (example_request 18 20 15)
         example_store).2 = dom example_store /\
  exists ci',
    (step2_submit_statistics no_str_floats (example_request 18 20 15)
       example_store).2 !! "5f2b" = Some ci' /\
    email ci' = "user@example.com" /\
    numbers_y ci' = [10; 20; 15; 20; 25] /\
    correct_stats ci' = example_stats /\
    0 <= step2_attempts ci' <= 0 + 1 /\
    (ci' = example_challenge 0 JNull \/
     exists data us,
       well_formed_for "5f2b" (example_request 18 20 15) data us).
Proof.
  apply (step2_frame no_str_floats (example_request 18 20 15) example_store
           "5f2b" (example_challenge 0 JNull)).
  reflexivity.
Defined.

Lemma recorded_success_persists_witness :
  exists ci',
    run no_str_floats [example_request 18 20 15; example_request 17 20 20]
      recorded_store !! "5f2b" = Some ci' /\
    last_correct_submission_data ci' <> JNull.
Proof.
  apply (recorded_success_persists no_str_floats
           [example_request 18 20 15; example_request 17 20 20]
           recorded_store "5f2b"
           (example_challenge 1 (example_data 18 20 20))).
  - reflexivity.
  - discriminate.
Defined.

Lemma attempts_saturate_witness :
  exists ci',
    run no_str_floats (replicate 12 (example_request 18 20 15)) example_store
      !! "5f2b" = Some ci' /\
    step2_attempts ci' = Z.min (0 + 12) MAX_STEP2_ATTEMPTS.
Proof.
  apply (attempts_saturate no_str_floats
           (replicate 12 (example_request 18 20 15)) example_store "5f2b"
           (example_challenge 0 JNull)).
  - repeat constructor; eexists _, _; apply example_well_formed.
  - reflexivity.
  - vm_compute. discriminate.
Defined.

Lemma matching_submission_witness :
  step2_submit_statistics no_str_floats (example_request 18 20 20)
    example_store
  = (success,
     <["5f2b" := succeeded (attempted (example_challenge 0 JNull))
                   (example_data 18 20 20)]> example_store).
Proof.
  apply (matching_submission_succeeds no_str_floats
           (example_request 18 20 20) example_store (example_data 18 20 20)
           (example_fields 18 20 20) "5f2b" (example_challenge 0 JNull)
           [S754_finite false 5629499534213120 (-48)]
           (S754_finite false 5629499534213120 (-48))).
  - apply example_reachable.
  - apply example_reaches.
  - reflexivity.
  - reflexivity.
  - reflexivity.
  - reflexivity.
  - reflexivity.
  - reflexivity.
  - reflexivity.
  - apply list_elem_of_here.
Defined.

Lemma non_finite_value_witness :
  (step2_submit_statistics no_str_floats (Body nan_data) example_store).1
  <> success /\
  (step2_submit_statistics no_str_floats (Body nan_data) example_store).2
  = <["5f2b" := attempted (example_challenge 0 JNull)]> example_store.
Proof.
  apply (non_finite_value_never_accepted no_str_floats (Body nan_data)
           example_store nan_data nan_fields "5f2b"
           (example_challenge 0 JNull) (JFloat S754_nan) S754_nan).
  - apply example_reachable.
  - repeat split; done.
  - apply list_elem_of_In. simpl. auto.
  - reflexivity.
  - reflexivity.
Defined.

Lemma string_mean_witness :
  step2_submit_statistics float_of_17 (Body string_data) example_store
  = (Crashed ValueError,
     <["5f2b" := attempted (example_challenge 0 JNull)]> example_store).
Proof.
  apply (mismatching_string_mean_crashes float_of_17 (Body string_data)
           example_store string_data string_fields "5f2b"
           (example_challenge 0 JNull) "17"
           (S754_finite false 4785074604081152 (-48))
           (S754_finite false 5629499534213120 (-49))
           (S754_finite false 7036874417766400 (-48))
           (S754_finite false 5066549580791808 (-48))).
  - apply reach_step1; [constructor|apply example_randomness].
  - repeat split; done.
  - reflexivity.
  - reflexivity.
  - reflexivity.
  - reflexivity.
  - reflexivity.
  - vm_compute. reflexivity.
Defined.

Lemma rejections_witness :
  (429 = 200 \/ 429 = 400 \/ 429 = 429) /\
  (attempts_exhausted <> success -> attempts_exhausted <> failure ->
   (step2_submit_statistics no_str_floats (example_request 18 20 20)
      exhausted_store).2 = exhausted_store).
Proof.
  apply (rejections_leave_the_store no_str_floats (example_request 18 20 20)
           exhausted_store
           (message "Please try again!!! (Max attempts reached)") 429).
  reflexivity.
Defined.

Lemma ok_means_recorded_witness :
  exists data us k ci',
    well_formed_for k (example_request 18 20 20) data us /\
    (step2_submit_statistics no_str_floats (example_request 18 20 20)
       example_store).2 !! k = Some ci' /\
    truthy (last_correct_submission_data ci') = true.
Proof.
  apply (ok_means_recorded no_str_floats (example_request 18 20 20)
           example_store
           (message "Your response has been submitted successfully")).
  reflexivity.
Defined.

Lemma unknown_key_witness :
  step2_submit_statistics no_str_floats (example_request 18 20 20) ∅
  = (Response (message "Please try again!!! (Invalid secret_key)") 400, ∅).
Proof.
  apply (unknown_key_rejected no_str_floats (example_request 18 20 20) ∅
           (example_data 18 20 20) (example_fields 18 20 20) "5f2b").
  - apply example_well_formed.
  - reflexivity.
Defined.

Lemma unhashable_key_witness :
  step2_submit_statistics no_str_floats (Body array_key_data) example_store
  = (Crashed TypeError, example_store).
Proof.
  apply (unhashable_key_crashes no_str_floats (Body array_key_data)
           example_store array_key_data (JList [JInt 1])
           (example_fields 18 20 20)).
  - reflexivity.
  - reflexivity.
  - reflexivity.
  - left. by exists [JInt 1].
Defined.

Lemma issuance_witness :
  exists body ci,
    step1_get_challenge (Some "user@example.com") "5f2b" 5 example_randint ∅
    = (Response body 200, <["5f2b" := ci]> ∅) /\
    json_get body "secret_key" = Ok (JStr "5f2b") /\
    json_get body "numbers" = Ok (JList (map JInt (numbers_y ci))) /\
    calculate_statistics (numbers_y ci) = Ok (correct_stats ci) /\
    step2_attempts ci = 0 /\
    last_correct_submission_data ci = JNull /\
    (5 <= length (numbers_y ci) <= 15)%nat /\
    Forall (fun y => 1 <= y <= 100) (numbers_y ci).
Proof.
  apply (issuance_stores_what_it_returns "user@example.com" "5f2b" 5
           example_randint ∅).
  - discriminate.
  - apply example_randomness.
Defined.
